(** * bionic.code_references: the reference walker, embedded and verified

    The module under study finds the objects a Python code object refers
    to by walking its bytecode with a one-register abstract machine
    ([tos], "top of the stack").  This file embeds

      - [get_code_context]        (src/bionic/code_references.py, l. 24-44)
      - [get_referenced_objects]  (src/bionic/code_references.py, l. 47-124)
      - [get_references]          (src/tests/test_code_references.py, l. 11-13)

    and proves properties of them.

    Modelling conventions.
      - Python values are the inductive [value]; what an arbitrary object
        answers to [getattr], to [bool()] and what [importlib] finds are
        not fixed by the module, so they are fields of a [Runtime] that
        every definition and theorem is parametric in.
        They are taken to be pure: they answer, and touch no dictionary.
      - Only instances of Python's [Exception] class are modelled: they
        are what [except Exception] (l. 107) catches.  [warnings.warn]
        is modelled as appending to a log of warnings.
      - Dictionaries are objects with identity.  They live in a [Heap]
        at an address; a [CodeContext] holds three addresses, so that
        in-place mutation and aliasing are visible.
      - The walker is written in a state-and-exception monad [M] whose
        state survives a raised exception, as Python's does. *)

From Stdlib Require Import ZArith String List Bool Lia.
From stdpp Require Import base option list strings gmap fin_maps.

Local Open Scope string_scope.
Local Open Scope list_scope.

(* ===================================================================== *)
(** ** Python values, exceptions and the runtime                          *)
(* ===================================================================== *)

Inductive value : Type :=
| VNone
| VBool (b : bool)
| VInt (z : Z)
| VStr (s : string)
| VObj (id : nat).

Inductive Exception : Type :=
| AssertionError
| TypeError (msg : string)
| ValueError (msg : string)
| KeyError (key : string)
| AttributeError (name : string)
| ImportError (name : string)
| RuntimeError (msg : string).

(** [except ImportError] (l. 85). *)
Definition is_ImportError (e : Exception) : bool :=
  match e with ImportError _ => true | _ => false end.

(** What the interpreter answers for the objects the walker meets. *)
Record Runtime : Type := {
  getattr : value -> string -> Exception + value;
  import_module : string -> Exception + value;
  obj_bool : nat -> Exception + bool
}.

(** [x is None]. *)
Definition is_None (v : value) : bool :=
  match v with VNone => true | _ => false end.

(** [bool(x)]: the truth value Python's [and] tests. *)
Definition truth (rt : Runtime) (v : value) : Exception + bool :=
  match v with
  | VNone => inr false
  | VBool b => inr b
  | VInt z => inr (negb (z =? 0)%Z)
  | VStr s => inr (negb (String.eqb s ""))
  | VObj id => obj_bool rt id
  end.

(* ===================================================================== *)
(** ** Dictionaries on the heap                                           *)
(* ===================================================================== *)

Abbreviation dict := (gmap string value).
Abbreviation Heap := (gmap nat (gmap string value)).

(** The dictionary stored at address [l]. *)
Definition deref (h : Heap) (l : nat) : dict := default ∅ (h !! l).

(* ===================================================================== *)
(** ** Instructions, code objects, functions, contexts                    *)
(* ===================================================================== *)

(** One element of [dis.get_instructions(code)]. *)
Record Instruction : Type := {
  opname : string;
  argval : string;
  starts_line : option Z
}.

Record Code : Type := {
  co_filename : string;
  co_name : string;
  co_cellvars : list string;
  co_freevars : list string;
  instructions : list Instruction
}.

(** A closure cell; [None] is an empty cell, whose [cell_contents]
    raises [ValueError]. *)
Abbreviation cell := (option value).

(** A function or bound method.  [f_closure] is [func.__closure__]
    ([None] or a tuple of cells), [f_globals] the address of
    [func.__globals__], and [f_self] is [Some receiver] exactly when
    [inspect.ismethod(func)]. *)
Record Func : Type := {
  f_code : Code;
  f_closure : option (list cell);
  f_globals : nat;
  f_self : option value
}.

(** [CodeContext] (l. 17-21): three references to dictionaries. *)
Record CodeContext : Type := {
  globals : nat;
  cells : nat;
  varnames : nat
}.

(** The diagnostic of l. 108-122: file, line, callable and [str(e)]. *)
Record Warning : Type := {
  w_filename : string;
  w_lineno : option Z;
  w_name : string;
  w_error : Exception
}.

(* ===================================================================== *)
(** ** The walker's monad                                                 *)
(* ===================================================================== *)

(** The locals [tos], [lineno], [refs] of one invocation, the heap, and
    the warnings emitted so far. *)
Record WalkState : Type := {
  tos : value;
  lineno : option Z;
  refs : list value;
  heap : Heap;
  warned : list Warning
}.

Definition with_tos (st : WalkState) (t : value) : WalkState :=
  {| tos := t; lineno := lineno st; refs := refs st;
     heap := heap st; warned := warned st |}.

Definition with_lineno (st : WalkState) (l : option Z) : WalkState :=
  {| tos := tos st; lineno := l; refs := refs st;
     heap := heap st; warned := warned st |}.

Definition with_refs (st : WalkState) (r : list value) : WalkState :=
  {| tos := tos st; lineno := lineno st; refs := r;
     heap := heap st; warned := warned st |}.

Definition with_heap (st : WalkState) (h : Heap) : WalkState :=
  {| tos := tos st; lineno := lineno st; refs := refs st;
     heap := h; warned := warned st |}.

Definition with_warned (st : WalkState) (w : list Warning) : WalkState :=
  {| tos := tos st; lineno := lineno st; refs := refs st;
     heap := heap st; warned := w |}.

Definition M (A : Type) : Type := WalkState -> (Exception + A) * WalkState.

Definition ret {A} (a : A) : M A := fun st => (inr a, st).

Definition raise {A} (e : Exception) : M A := fun st => (inl e, st).

Definition bind {A B} (m : M A) (k : A -> M B) : M B :=
  fun st =>
    match m st with
    | (inr a, st1) => k a st1
    | (inl e, st1) => (inl e, st1)
    end.

Definition lift {A} (r : Exception + A) : M A := fun st => (r, st).

Definition gets {A} (f : WalkState -> A) : M A := fun st => (inr (f st), st).

Definition modify (f : WalkState -> WalkState) : M unit :=
  fun st => (inr tt, f st).

(** [try: body / except Exception as e: handler e]. *)
Definition try_except (body : M unit) (handler : Exception -> M unit) : M unit :=
  fun st =>
    match body st with
    | (inr tt, st1) => (inr tt, st1)
    | (inl e, st1) => handler e st1
    end.

Declare Scope walk_scope.
Delimit Scope walk_scope with walk.
Notation "x <- m ;; k" := (bind m (fun x => k))
  (at level 100, m at next level, k at level 200, right associativity)
  : walk_scope.
Notation "m ;; k" := (bind m (fun _ => k))
  (at level 100, k at level 200, right associativity) : walk_scope.

(** [for x in xs: body x]; an exception leaving [body] ends the loop. *)
Fixpoint for_each {A} (xs : list A) (body : A -> M unit) : M unit :=
  match xs with
  | [] => ret tt
  | x :: rest => bind (body x) (fun _ => for_each rest body)
  end.

(** [a and b], with Python's short circuit. *)
Definition and_then (a : bool) (b : M bool) : M bool :=
  if a then b else ret false.

(** [x in xs] for a literal list of opcode names. *)
Definition str_in (s : string) (xs : list string) : bool :=
  existsb (String.eqb s) xs.

Section Walker.

Variable rt : Runtime.

Local Open Scope walk_scope.

(** [k in d] *)
Definition dict_contains (l : nat) (k : string) : M bool :=
  gets (fun st => bool_decide (is_Some (deref (heap st) l !! k))).

(** [d[k]] *)
Definition dict_getitem (l : nat) (k : string) : M value :=
  fun st =>
    match deref (heap st) l !! k with
    | Some v => (inr v, st)
    | None => (inl (KeyError k), st)
    end.

(** [d[k] = v] *)
Definition dict_setitem (l : nat) (k : string) (v : value) : M unit :=
  modify (fun st =>
    with_heap st (<[l := <[k := v]> (deref (heap st) l)]> (heap st))).

(** [del d[k]] *)
Definition dict_delitem (l : nat) (k : string) : M unit :=
  fun st =>
    match deref (heap st) l !! k with
    | Some _ =>
        (inr tt, with_heap st (<[l := delete k (deref (heap st) l)]> (heap st)))
    | None => (inl (KeyError k), st)
    end.

(** [refs.append(v)] *)
Definition refs_append (v : value) : M unit :=
  modify (fun st => with_refs st (refs st ++ [v])).

(** [tos = v] *)
Definition assign_tos (v : value) : M unit :=
  modify (fun st => with_tos st v).

(** The truth value of [tos], as tested by [... and tos]. *)
Definition tos_truth : M bool :=
  t <- gets tos ;; lift (truth rt t).

(** [set_tos] (l. 53-58). *)
Definition set_tos (t : value) : M unit :=
  old <- gets tos ;;
  (if is_None old then ret tt else refs_append old) ;;
  assign_tos t.

(** The body of the [try] (l. 69-106). *)
Definition dispatch (context : CodeContext) (op : Instruction) : M unit :=
  (match starts_line op with
   | Some l => modify (fun st => with_lineno st (Some l))
   | None => ret tt
   end) ;;
  if str_in (opname op) ["LOAD_GLOBAL"; "LOAD_NAME"] then
    present <- dict_contains (globals context) (argval op) ;;
    if present then
      v <- dict_getitem (globals context) (argval op) ;; set_tos v
    else
      set_tos (VStr (argval op))
  else if str_in (opname op) ["LOAD_DEREF"; "LOAD_CLOSURE"] then
    v <- dict_getitem (cells context) (argval op) ;; set_tos v
  else if String.eqb (opname op) "IMPORT_NAME" then
    match import_module rt (argval op) with
    | inr m => set_tos m
    | inl e => if is_ImportError e then set_tos (VStr (argval op)) else raise e
    end
  else if str_in (opname op) ["LOAD_METHOD"; "LOAD_ATTR"; "IMPORT_FROM"] then
    t <- gets tos ;;
    match t with
    | VNone => refs_append (VStr (argval op))
    | VStr s => assign_tos (VStr (s ++ "." ++ argval op))
    | _ => r <- lift (getattr rt t (argval op)) ;; assign_tos r
    end
  else
    del <- and_then (String.eqb (opname op) "DELETE_FAST") tos_truth ;;
    if del then
      dict_delitem (varnames context) (argval op) ;; assign_tos VNone
    else
      sto <- and_then (String.eqb (opname op) "STORE_FAST") tos_truth ;;
      if sto then
        t <- gets tos ;;
        dict_setitem (varnames context) (argval op) t ;; assign_tos VNone
      else
        ld <- and_then (String.eqb (opname op) "LOAD_FAST")
                       (dict_contains (varnames context) (argval op)) ;;
        if ld then
          v <- dict_getitem (varnames context) (argval op) ;; set_tos v
        else
          t <- gets tos ;;
          if is_None t then ret tt
          else refs_append t ;; assign_tos VNone.

(** The [except] handler (l. 107-122): build the message and
    [warnings.warn] it.  Nothing else is touched. *)
Definition warn (code : Code) (e : Exception) : M unit :=
  modify (fun st =>
    with_warned st
      (warned st ++ [ {| w_filename := co_filename code;
                         w_lineno := lineno st;
                         w_name := co_name code;
                         w_error := e |} ])).

(** One turn of the loop: [try: dispatch / except Exception: warn]. *)
Definition step (code : Code) (context : CodeContext) (op : Instruction) : M unit :=
  try_except (dispatch context op) (warn code).

(** The loop and the [return refs] (l. 67-124), from a given state. *)
Definition walk (code : Code) (context : CodeContext) : M (list value) :=
  for_each (instructions code) (step code context) ;;
  gets refs.

(** The locals at entry (l. 49-51), over heap [h]. *)
Definition entry (h : Heap) : WalkState :=
  {| tos := VNone; lineno := None; refs := []; heap := h; warned := [] |}.

(** [get_referenced_objects(code, context)] called in heap [h]:
    the returned list or the escaping exception, and the final state. *)
Definition get_referenced_objects (code : Code) (context : CodeContext)
    (h : Heap) : (Exception + list value) * WalkState :=
  walk code context (entry h).

End Walker.

(* ===================================================================== *)
(** ** The context builder                                                *)
(* ===================================================================== *)

(** [for var in code.co_cellvars: cells[var] = var] (l. 31-32). *)
Definition cellvar_placeholders (names : list string) : dict :=
  foldl (fun d var => <[var := VStr var]> d) ∅ names.

(** [cells.update(zip(names, map(lambda c: c.cell_contents, closure)))]
    (l. 36-38): pairs are consumed left to right, [zip] stops at the
    shorter list, reading an empty cell raises. *)
Fixpoint update_from_closure (d : dict) (names : list string)
    (closure : list cell) : Exception + dict :=
  match names, closure with
  | n :: names', c :: closure' =>
      match c with
      | Some v => update_from_closure (<[n := v]> d) names' closure'
      | None => inl (ValueError "Cell is empty")
      end
  | _, _ => inr d
  end.

(** The dictionary [cells] built by l. 29-38. *)
Definition build_cells (func : Func) : Exception + dict :=
  let code := f_code func in
  let d := cellvar_placeholders (co_cellvars code) in
  match co_freevars code with
  | [] => inr d
  | _ :: _ =>
      match f_closure func with
      | None => inl (TypeError "object of type 'NoneType' has no len()")
      | Some closure =>
          if (length (co_freevars code) =? length closure)%nat
          then update_from_closure d (co_freevars code) closure
          else inl AssertionError
      end
  end.

(** The dictionary [varnames] built by l. 40-42. *)
Definition build_varnames (func : Func) : dict :=
  match f_self func with
  | Some receiver => {[ "self" := receiver ]}
  | None => ∅
  end.

(** [get_code_context(func)] called in heap [h]: the two new
    dictionaries are allocated at fresh addresses; [globals] is the
    function's own reference. *)
Definition get_code_context (func : Func) (h : Heap)
    : Exception + (CodeContext * Heap) :=
  match build_cells func with
  | inl e => inl e
  | inr d =>
      let lc := fresh (dom h) in
      let h1 := <[lc := d]> h in
      let lv := fresh (dom h1) in
      let h2 := <[lv := build_varnames func]> h1 in
      inr ({| globals := f_globals func; cells := lc; varnames := lv |}, h2)
  end.

(** [get_references] of the test suite: build the context, then walk. *)
Definition get_references (rt : Runtime) (func : Func) (h : Heap)
    : Exception + (list value * WalkState) :=
  match get_code_context func h with
  | inl e => inl e
  | inr (context, h1) =>
      match get_referenced_objects rt (f_code func) context h1 with
      | (inl e, _) => inl e
      | (inr r, st) => inr (r, st)
      end
  end.

(* ===================================================================== *)
(** ** Auxiliary definitions used in the statements                       *)
(* ===================================================================== *)

(** The state an instruction's line marker leaves (l. 72-73). *)
Definition advance_line (op : Instruction) (st : WalkState) : WalkState :=
  match starts_line op with
  | Some l => with_lineno st (Some l)
  | None => st
  end.

(** The state after the handler has run for exception [e]. *)
Definition warned_with (code : Code) (e : Exception) (st : WalkState) : WalkState :=
  with_warned st
    (warned st ++ [ {| w_filename := co_filename code; w_lineno := lineno st;
                       w_name := co_name code; w_error := e |} ]).

(** The state one turn of the loop leaves. *)
Definition after_step (rt : Runtime) (code : Code) (context : CodeContext)
    (st : WalkState) (op : Instruction) : WalkState :=
  snd (step rt code context op st).

(** The state a run of turns leaves. *)
Definition after_steps (rt : Runtime) (code : Code) (context : CodeContext)
    (ops : list Instruction) (st : WalkState) : WalkState :=
  fold_left (after_step rt code context) ops st.

(** The three states of the working register.  The code keeps a bare
    Python value in [tos] and tells the states apart with [tos is None]
    and [isinstance(tos, str)] (l. 88-93); [register] is that reading. *)
Inductive SymbolicValue : Type :=
| Empty
| Concrete (v : value)
| PartialName (s : string).

Definition register (t : value) : SymbolicValue :=
  match t with
  | VNone => Empty
  | VStr s => PartialName s
  | v => Concrete v
  end.

(** The opcode names [dispatch] tests for; any other name reaches the
    final [else] (l. 102-106). *)
Definition named_opcodes : list string :=
  ["LOAD_GLOBAL"; "LOAD_NAME"; "LOAD_DEREF"; "LOAD_CLOSURE"; "IMPORT_NAME";
   "LOAD_METHOD"; "LOAD_ATTR"; "IMPORT_FROM";
   "DELETE_FAST"; "STORE_FAST"; "LOAD_FAST"].

(** What the final [else] does: hash the current TOS. *)
Definition commit (st : WalkState) : WalkState :=
  if is_None (tos st) then st
  else with_tos (with_refs st (refs st ++ [tos st])) VNone.

(** What [set_tos t] does. *)
Definition push (t : value) (st : WalkState) : WalkState :=
  with_tos (if is_None (tos st) then st else with_refs st (refs st ++ [tos st])) t.

(** The state in which [get_referenced_objects] leaves its loop. *)
Definition final_state (rt : Runtime) (code : Code) (context : CodeContext)
    (h : Heap) : WalkState :=
  after_steps rt code context (instructions code) (entry h).

(** The dictionary [varnames] is an object of its own, neither the
    [globals] nor the [cells] dictionary.  [get_code_context] builds
    such contexts (l. 29, 40-42). *)
Definition separate (c : CodeContext) : Prop :=
  varnames c <> globals c /\ varnames c <> cells c.

(** Two contexts, each in its heap, hold equal bindings. *)
Definition same_bindings (c1 c2 : CodeContext) (h1 h2 : Heap) : Prop :=
  deref h1 (globals c1) = deref h2 (globals c2)
  /\ deref h1 (cells c1) = deref h2 (cells c2)
  /\ deref h1 (varnames c1) = deref h2 (varnames c2).

(** Two walker states agree on the locals, the warnings and the
    bindings of their contexts. *)
Definition agree (c1 c2 : CodeContext) (st1 st2 : WalkState) : Prop :=
  tos st1 = tos st2
  /\ lineno st1 = lineno st2
  /\ refs st1 = refs st2
  /\ warned st1 = warned st2
  /\ same_bindings c1 c2 (heap st1) (heap st2).

(* ===================================================================== *)
(** ** A small concrete world                                             *)
(* ===================================================================== *)

(** Object 1 has one attribute, [ok], whose value is object 2; module
    [pytest] is object 7; no other import succeeds; objects are truthy. *)
Definition ex_rt : Runtime := {|
  getattr := fun v a =>
    match v with
    | VObj 1 => if String.eqb a "ok" then inr (VObj 2) else inl (AttributeError a)
    | _ => inl (AttributeError a)
    end;
  import_module := fun n =>
    if String.eqb n "pytest" then inr (VObj 7) else inl (ImportError n);
  obj_bool := fun _ => inr true
|}.

(** A module namespace: [g = 42], [o = <object 1>], [z = 0],
    [s = "str"], [n = None]. *)
Definition ex_globals : dict :=
  <["g" := VInt 42]> (<["o" := VObj 1]> (<["z" := VInt 0]>
    (<["s" := VStr "str"]> (<["n" := VNone]> ∅)))).

(** Globals at address 0, empty [cells] at 1, empty [varnames] at 2. *)
Definition ex_heap : Heap :=
  <[0 := ex_globals]> (<[1 := ∅]> (<[2 := ∅]> ∅)).

Definition ex_context : CodeContext :=
  {| globals := 0; cells := 1; varnames := 2 |}.

Definition ex_op (name arg : string) : Instruction :=
  {| opname := name; argval := arg; starts_line := None |}.

Definition ex_code (ops : list Instruction) : Code :=
  {| co_filename := "mod.py"; co_name := "x";
     co_cellvars := []; co_freevars := []; instructions := ops |}.

Definition ex_state (t : value) : WalkState :=
  {| tos := t; lineno := None; refs := []; heap := ex_heap; warned := [] |}.

(** A function object without free variables whose [__closure__]
    nevertheless holds one cell. *)
Definition ex_func_extra_cell : Func :=
  {| f_code := ex_code [ex_op "RETURN_VALUE" ""];
     f_closure := Some [Some (VInt 1)];
     f_globals := 0;
     f_self := None |}.

(** [def x(): return free_val], closed over [free_val = "42"]. *)
Definition ex_func_closure : Func :=
  {| f_code := {| co_filename := "mod.py"; co_name := "x";
                  co_cellvars := []; co_freevars := ["free_val"];
                  instructions := [ex_op "LOAD_DEREF" "free_val";
                                   ex_op "RETURN_VALUE" ""] |};
     f_closure := Some [Some (VStr "42")];
     f_globals := 0;
     f_self := None |}.

(** The same code object with a closure of two cells. *)
Definition ex_func_two_cells : Func :=
  {| f_code := f_code ex_func_closure;
     f_closure := Some [Some (VStr "42"); Some (VInt 1)];
     f_globals := 0;
     f_self := None |}.

(** [y = g; return y] *)
Definition ex_ops_store : list Instruction :=
  [ex_op "LOAD_GLOBAL" "g"; ex_op "STORE_FAST" "y"; ex_op "RETURN_VALUE" ""].

(** [return y] *)
Definition ex_ops_load : list Instruction :=
  [ex_op "LOAD_FAST" "y"; ex_op "RETURN_VALUE" ""].

(** The bindings of [ex_heap] once more, at other addresses. *)
Definition ex_heap_moved : Heap :=
  <[5 := ex_globals]> (<[6 := ∅]> (<[7 := ∅]> ∅)).

Definition ex_context_moved : CodeContext :=
  {| globals := 5; cells := 6; varnames := 7 |}.

(** The functions of tests/test_code_references.py, as compiled by
    CPython 3.8, over the namespace [ex_globals] (where [g] plays
    [global_val]). *)
Definition test_func (cellvars freevars : list string)
    (closure : option (list cell)) (ops : list Instruction) : Func :=
  {| f_code := {| co_filename := "test_code_references.py"; co_name := "x";
                  co_cellvars := cellvars; co_freevars := freevars;
                  instructions := ops |};
     f_closure := closure; f_globals := 0; f_self := None |}.

(** [def x(): return 42] *)
Definition test_empty : Func :=
  test_func [] [] None [ex_op "LOAD_CONST" "42"; ex_op "RETURN_VALUE" ""].

(** [def x(): return global_val] *)
Definition test_global : Func :=
  test_func [] [] None [ex_op "LOAD_GLOBAL" "g"; ex_op "RETURN_VALUE" ""].

(** [def x(): return free_val], with [free_val = "42"] outside. *)
Definition test_free : Func :=
  test_func [] ["free_val"] (Some [Some (VStr "42")])
    [ex_op "LOAD_DEREF" "free_val"; ex_op "RETURN_VALUE" ""].

(** [def x(): cell_val = "42"; def y(): return cell_val] *)
Definition test_cell : Func :=
  test_func ["cell_val"] [] None
    [ex_op "LOAD_CONST" "42"; ex_op "STORE_DEREF" "cell_val";
     ex_op "LOAD_CLOSURE" "cell_val"; ex_op "BUILD_TUPLE" "1";
     ex_op "LOAD_CONST" "<code object y>"; ex_op "LOAD_CONST" "x.<locals>.y";
     ex_op "MAKE_FUNCTION" "8"; ex_op "STORE_FAST" "y";
     ex_op "LOAD_CONST" "None"; ex_op "RETURN_VALUE" ""].

(** [def x(): import pytest; return pytest] *)
Definition test_import : Func :=
  test_func [] [] None
    [ex_op "LOAD_CONST" "0"; ex_op "LOAD_CONST" "None";
     ex_op "IMPORT_NAME" "pytest"; ex_op "STORE_FAST" "pytest";
     ex_op "LOAD_FAST" "pytest"; ex_op "RETURN_VALUE" ""].

(** [def y(): return func_does_not_exist()] *)
Definition test_undefined : Func :=
  test_func [] [] None
    [ex_op "LOAD_GLOBAL" "func_does_not_exist"; ex_op "CALL_FUNCTION" "0";
     ex_op "RETURN_VALUE" ""].

(** [def x(): my_class = MyClass(); my_class.log_val()], with the class
    [MyClass] (object 1) defined in the enclosing function. *)
Definition test_method : Func :=
  test_func [] ["MyClass"] (Some [Some (VObj 1)])
    [ex_op "LOAD_DEREF" "MyClass"; ex_op "CALL_FUNCTION" "0";
     ex_op "STORE_FAST" "my_class"; ex_op "LOAD_FAST" "my_class";
     ex_op "LOAD_METHOD" "log_val"; ex_op "CALL_METHOD" "0";
     ex_op "POP_TOP" ""; ex_op "LOAD_CONST" "None"; ex_op "RETURN_VALUE" ""].

(** The list [get_references] returns, if it returns. *)
Definition returned (r : Exception + (list value * WalkState))
    : Exception + list value :=
  match r with
  | inl e => inl e
  | inr (refs, _) => inr refs
  end.

(* ===================================================================== *)
(** ** Further notions used in the statements about whole streams          *)
(* ===================================================================== *)

(** What a register holding [t] contributes when it is committed. *)
Definition pending (t : value) : list value :=
  if is_None t then [] else [t].

(** The line [lineno] holds after a run of instructions that started
    with [line]: the last marker met, if any (l. 72-73). *)
Definition last_line (ops : list Instruction) (line : option Z) : option Z :=
  fold_left
    (fun l op => match starts_line op with Some x => Some x | None => l end)
    ops line.

(** What LOAD_GLOBAL puts in the register for name [n] (l. 76-79). *)
Definition resolve_global (g : dict) (n : string) : value :=
  default (VStr n) (g !! n).

(** The dotted path a run of attribute loads builds on the string [s]
    (l. 91). *)
Definition dotted (s : string) (attrs : list Instruction) : string :=
  fold_left (fun (acc : string) op => (acc ++ "." ++ argval op)%string) attrs s.

(** The warnings all name this code object. *)
Definition names_code (code : Code) (w : Warning) : Prop :=
  w_filename w = co_filename code /\ w_name w = co_name code.

(** An instruction that can write to [varnames]. *)
Definition writes_locals (op : Instruction) : Prop :=
  opname op = "STORE_FAST" \/ opname op = "DELETE_FAST".

(** [def f(): import os; return os.path], a stream with line markers. *)
Definition ex_ops_lines : list Instruction :=
  [ {| opname := "LOAD_GLOBAL"; argval := "o"; starts_line := Some 3%Z |};
    {| opname := "LOAD_ATTR"; argval := "missing"; starts_line := None |};
    {| opname := "RETURN_VALUE"; argval := ""; starts_line := Some 4%Z |} ].

(** The opcodes that read a global, a captured variable, a module or
    an attribute; a stream without them touches locals only. *)
Definition reference_opcodes : list string :=
  ["LOAD_GLOBAL"; "LOAD_NAME"; "LOAD_DEREF"; "LOAD_CLOSURE"; "IMPORT_NAME";
   "LOAD_METHOD"; "LOAD_ATTR"; "IMPORT_FROM"].

(** [def x(val): y = val; del y; return val] *)
Definition ex_ops_locals_only : list Instruction :=
  [ex_op "LOAD_FAST" "val"; ex_op "STORE_FAST" "y"; ex_op "DELETE_FAST" "y";
   ex_op "LOAD_FAST" "val"; ex_op "RETURN_VALUE" ""].

(** A function whose second closure cell is still empty. *)
Definition ex_func_empty_cell : Func :=
  {| f_code := {| co_filename := "mod.py"; co_name := "x";
                  co_cellvars := ["inner"]; co_freevars := ["a"; "later"];
                  instructions := [ex_op "LOAD_DEREF" "later";
                                   ex_op "RETURN_VALUE" ""] |};
     f_closure := Some [Some (VInt 1); None];
     f_globals := 0;
     f_self := None |}.

(** The same function once the cell is filled. *)
Definition ex_func_filled_cell : Func :=
  {| f_code := f_code ex_func_empty_cell;
     f_closure := Some [Some (VInt 1); Some (VObj 1)];
     f_globals := 0;
     f_self := None |}.

(** A bound method [obj.m] whose body is [return self]. *)
Definition ex_method : Func :=
  {| f_code := {| co_filename := "mod.py"; co_name := "m";
                  co_cellvars := []; co_freevars := [];
                  instructions := [ex_op "LOAD_FAST" "self";
                                   ex_op "RETURN_VALUE" ""] |};
     f_closure := None;
     f_globals := 0;
     f_self := Some (VObj 1) |}.

(* ===================================================================== *)
(** ** The repository's tests, replayed on the embedding                  *)
(* ===================================================================== *)

Example test_empty_references :
  returned (get_references ex_rt test_empty ex_heap) = inr [].
Proof. vm_compute. reflexivity. Qed.

Example test_global_references :
  returned (get_references ex_rt test_global ex_heap) = inr [VInt 42].
Proof. vm_compute. reflexivity. Qed.

Example test_free_references :
  returned (get_references ex_rt test_free ex_heap) = inr [VStr "42"].
Proof. vm_compute. reflexivity. Qed.

Example test_cell_references :
  returned (get_references ex_rt test_cell ex_heap) = inr [VStr "cell_val"].
Proof. vm_compute. reflexivity. Qed.

Example test_import_references :
  returned (get_references ex_rt test_import ex_heap) = inr [VObj 7].
Proof. vm_compute. reflexivity. Qed.

Example test_function_references :
  returned (get_references ex_rt test_undefined ex_heap)
    = inr [VStr "func_does_not_exist"].
Proof. vm_compute. reflexivity. Qed.

Example test_method_references :
  returned (get_references ex_rt test_method ex_heap)
    = inr [VObj 1; VStr "log_val"].
Proof. vm_compute. reflexivity. Qed.

(* ===================================================================== *)
(** ** Basic facts about the monad and the loop                           *)
(* ===================================================================== *)

Ltac unfold_monad :=
  unfold set_tos, tos_truth, and_then, dict_contains, dict_getitem,
    dict_setitem, dict_delitem, refs_append, assign_tos, warn,
    try_except, bind, ret, raise, lift, gets, modify in *.

Lemma str_in_true (s : string) (xs : list string) :
  str_in s xs = true -> In s xs.
Proof.
  unfold str_in. intros H. apply existsb_exists in H as [x [Hx Heq]].
  apply String.eqb_eq in Heq. now subst.
Qed.

Section LoopFacts.

Variable rt : Runtime.
Variable code : Code.
Variable context : CodeContext.

Lemma step_unfold op st :
  step rt code context op st =
    match dispatch rt context op st with
    | (inr _, st1) => (inr tt, st1)
    | (inl e, st1) => (inr tt, warned_with code e st1)
    end.
Proof.
  unfold step, try_except, warn, modify, warned_with.
  destruct (dispatch rt context op st) as [[e | []] st1]; reflexivity.
Qed.

Lemma step_returns op st :
  step rt code context op st = (inr tt, after_step rt code context st op).
Proof.
  unfold after_step. rewrite step_unfold.
  destruct (dispatch rt context op st) as [[e | u] st1]; reflexivity.
Qed.

Lemma for_each_step ops : forall st,
  for_each ops (step rt code context) st
    = (inr tt, after_steps rt code context ops st).
Proof.
  induction ops as [| op rest IH]; intros st; simpl.
  - reflexivity.
  - unfold bind. rewrite step_returns. apply IH.
Qed.

Lemma walk_returns st :
  walk rt code context st =
    (inr (refs (after_steps rt code context (instructions code) st)),
     after_steps rt code context (instructions code) st).
Proof.
  unfold walk, bind. rewrite for_each_step. reflexivity.
Qed.

Lemma after_steps_app pre post st :
  after_steps rt code context (pre ++ post) st
    = after_steps rt code context post (after_steps rt code context pre st).
Proof. unfold after_steps. apply fold_left_app. Qed.

Lemma get_referenced_objects_final h :
  get_referenced_objects rt code context h
    = (inr (refs (final_state rt code context h)), final_state rt code context h).
Proof. unfold get_referenced_objects, final_state. apply walk_returns. Qed.

End LoopFacts.

Lemma advance_line_fields op st :
  tos (advance_line op st) = tos st
  /\ refs (advance_line op st) = refs st
  /\ heap (advance_line op st) = heap st
  /\ warned (advance_line op st) = warned st.
Proof. unfold advance_line. destruct (starts_line op); auto. Qed.

Section DispatchFacts.

Variable rt : Runtime.
Variable context : CodeContext.

(** The head of [dispatch]: the line marker, then the opcode test. *)
Lemma dispatch_advance op st :
  dispatch rt context op st
    = dispatch rt context
        {| opname := opname op; argval := argval op; starts_line := None |}
        (advance_line op st).
Proof.
  unfold dispatch, advance_line; simpl.
  destruct (starts_line op); reflexivity.
Qed.

(** An exception leaves [tos], [refs], the heap and the warnings as
    they were before the instruction. *)
Lemma dispatch_raises op st e st1 :
  dispatch rt context op st = (inl e, st1) -> st1 = advance_line op st.
Proof.
  rewrite dispatch_advance. generalize (advance_line op st). clear st.
  intros st. unfold dispatch; simpl. unfold_monad.
  repeat case_match; intros; simplify_eq; reflexivity.
Qed.

(** [dispatch] emits no warning and writes to no dictionary other
    than [varnames]. *)
Lemma dispatch_frame op st r st1 :
  dispatch rt context op st = (r, st1) ->
  warned st1 = warned st
  /\ forall l, l <> varnames context -> heap st1 !! l = heap st !! l.
Proof.
  rewrite dispatch_advance.
  assert (warned (advance_line op st) = warned st
          /\ heap (advance_line op st) = heap st) as [<- <-].
  { unfold advance_line. destruct (starts_line op); auto. }
  generalize (advance_line op st). clear st.
  intros st. unfold dispatch; simpl. unfold_monad.
  repeat case_match; intros; simplify_eq; simpl; split; try reflexivity;
    intros l Hl; rewrite ?lookup_insert_ne by congruence; reflexivity.
Qed.

End DispatchFacts.

Section Branches.

Variable rt : Runtime.
Variable context : CodeContext.

Lemma bind_ret_l {A B} (a : A) (k : A -> M B) st :
  bind (ret a) k st = k a st.
Proof. reflexivity. Qed.

Ltac enter_dispatch :=
  rewrite dispatch_advance; unfold dispatch;
  cbn [opname argval starts_line]; rewrite bind_ret_l.

Lemma set_tos_push t st : set_tos t st = (inr tt, push t st).
Proof. unfold push. unfold_monad. destruct (tos st); reflexivity. Qed.

Lemma dispatch_load_attr op st :
  str_in (opname op) ["LOAD_METHOD"; "LOAD_ATTR"; "IMPORT_FROM"] = true ->
  dispatch rt context op st =
    let st0 := advance_line op st in
    match tos st0 with
    | VNone => (inr tt, with_refs st0 (refs st0 ++ [VStr (argval op)]))
    | VStr s => (inr tt, with_tos st0 (VStr (s ++ "." ++ argval op)))
    | v => match getattr rt v (argval op) with
           | inr r => (inr tt, with_tos st0 r)
           | inl e => (inl e, st0)
           end
    end.
Proof.
  intros H. apply str_in_true in H. simpl in H.
  enter_dispatch.
  destruct H as [H | [H | [H | []]]]; rewrite <- H; simpl; unfold_monad;
    destruct (tos (advance_line op st)); try reflexivity;
    destruct (getattr rt _ _); reflexivity.
Qed.

Lemma dispatch_default op st :
  str_in (opname op) named_opcodes = false ->
  dispatch rt context op st = (inr tt, commit (advance_line op st)).
Proof.
  intros H. unfold str_in, named_opcodes in H. simpl in H.
  repeat (apply orb_false_elim in H; destruct H as [? H]).
  enter_dispatch. unfold str_in; simpl.
  repeat match goal with E : String.eqb _ _ = false |- _ => rewrite E; clear E end.
  simpl. unfold commit. unfold_monad.
  destruct (tos (advance_line op st)); reflexivity.
Qed.

Lemma dispatch_load_global op st :
  str_in (opname op) ["LOAD_GLOBAL"; "LOAD_NAME"] = true ->
  dispatch rt context op st =
    let st0 := advance_line op st in
    (inr tt,
     push (default (VStr (argval op))
                   (deref (heap st0) (globals context) !! argval op)) st0).
Proof.
  intros H. enter_dispatch. rewrite H. unfold bind at 1. unfold dict_contains, gets.
  destruct (deref (heap (advance_line op st)) (globals context) !! argval op)
    as [v |] eqn:E; simpl.
  - unfold bind, dict_getitem. rewrite E. apply set_tos_push.
  - apply set_tos_push.
Qed.

Lemma dispatch_load_deref op st :
  str_in (opname op) ["LOAD_DEREF"; "LOAD_CLOSURE"] = true ->
  dispatch rt context op st =
    let st0 := advance_line op st in
    match deref (heap st0) (cells context) !! argval op with
    | Some v => (inr tt, push v st0)
    | None => (inl (KeyError (argval op)), st0)
    end.
Proof.
  intros H. apply str_in_true in H. simpl in H.
  enter_dispatch.
  destruct H as [H | [H | []]]; rewrite <- H; simpl;
    unfold bind, dict_getitem;
    destruct (deref _ _ !! _); try reflexivity; apply set_tos_push.
Qed.

Lemma dispatch_store_fast op st :
  opname op = "STORE_FAST" ->
  dispatch rt context op st =
    let st0 := advance_line op st in
    match truth rt (tos st0) with
    | inl e => (inl e, st0)
    | inr true =>
        (inr tt,
         with_tos
           (with_heap st0
              (<[varnames context :=
                   <[argval op := tos st0]> (deref (heap st0) (varnames context))]>
                 (heap st0)))
           VNone)
    | inr false => (inr tt, commit st0)
    end.
Proof.
  intros H. enter_dispatch. rewrite H. simpl. unfold commit. unfold_monad.
  destruct (truth rt (tos (advance_line op st))) as [e | []]; try reflexivity.
  destruct (tos (advance_line op st)); reflexivity.
Qed.

Lemma dispatch_delete_fast op st :
  opname op = "DELETE_FAST" ->
  dispatch rt context op st =
    let st0 := advance_line op st in
    match truth rt (tos st0) with
    | inl e => (inl e, st0)
    | inr true =>
        match deref (heap st0) (varnames context) !! argval op with
        | Some _ =>
            (inr tt,
             with_tos
               (with_heap st0
                  (<[varnames context :=
                       delete (argval op) (deref (heap st0) (varnames context))]>
                     (heap st0)))
               VNone)
        | None => (inl (KeyError (argval op)), st0)
        end
    | inr false => (inr tt, commit st0)
    end.
Proof.
  intros H. enter_dispatch. rewrite H. simpl. unfold commit. unfold_monad.
  destruct (truth rt (tos (advance_line op st))) as [e | []]; try reflexivity.
  - destruct (deref _ _ !! _); reflexivity.
  - destruct (tos (advance_line op st)); reflexivity.
Qed.

Lemma dispatch_load_fast op st :
  opname op = "LOAD_FAST" ->
  dispatch rt context op st =
    let st0 := advance_line op st in
    match deref (heap st0) (varnames context) !! argval op with
    | Some v => (inr tt, push v st0)
    | None => (inr tt, commit st0)
    end.
Proof.
  intros H. enter_dispatch. rewrite H. simpl.
  unfold and_then, ret. unfold bind at 1. unfold bind at 1. unfold bind at 1.
  unfold dict_contains, gets.
  destruct (deref (heap (advance_line op st)) (varnames context) !! argval op)
    as [v |] eqn:E; simpl.
  - unfold bind, dict_getitem. rewrite E. apply set_tos_push.
  - unfold commit. unfold_monad.
    destruct (tos (advance_line op st)); reflexivity.
Qed.

Lemma dispatch_import_name op st :
  opname op = "IMPORT_NAME" ->
  dispatch rt context op st =
    let st0 := advance_line op st in
    match import_module rt (argval op) with
    | inr m => (inr tt, push m st0)
    | inl e => if is_ImportError e then (inr tt, push (VStr (argval op)) st0)
               else (inl e, st0)
    end.
Proof.
  intros H. enter_dispatch. rewrite H. simpl.
  destruct (import_module rt (argval op)) as [e | m].
  - destruct (is_ImportError e); [apply set_tos_push | reflexivity].
  - apply set_tos_push.
Qed.

End Branches.

(* ===================================================================== *)
(** ** The walk as a whole                                                *)
(* ===================================================================== *)




(* ===================================================================== *)
(** ** After the last instruction                                         *)
(* ===================================================================== *)

(** C3, as stated, fails: on the one-instruction stream
    [LOAD_GLOBAL g] with [g = 42] the walk ends with 42 pending in
    [tos] and returns the empty list. *)
Lemma pending_value_not_returned :
  get_referenced_objects ex_rt (ex_code [ex_op "LOAD_GLOBAL" "g"])
    ex_context ex_heap
  = (inr [], with_tos (entry ex_heap) (VInt 42)).
Proof. vm_compute. reflexivity. Qed.

(** C3, amended.  [get_referenced_objects] returns exactly the entries
    appended while instructions were processed: the returned list is
    [refs] of the state the last instruction left, whatever [tos] holds
    then.  A pending value is committed only by a later instruction;
    when the stream ends in an instruction of no named opcode (as every
    compiled stream does, with its return), that instruction appends the
    pending value and leaves [tos] empty. *)
Theorem returns_refs_as_left_by_last_instruction (rt : Runtime) (code : Code)
    (context : CodeContext) (h : Heap) :
  get_referenced_objects rt code context h
    = (inr (refs (final_state rt code context h)), final_state rt code context h)
  /\ (forall pre op,
        instructions code = pre ++ [op] ->
        str_in (opname op) named_opcodes = false ->
        tos (final_state rt code context h) = VNone
        /\ refs (final_state rt code context h)
           = refs (after_steps rt code context pre (entry h))
             ++ (if is_None (tos (after_steps rt code context pre (entry h)))
                 then [] else [tos (after_steps rt code context pre (entry h))])).
Proof.
  split.
  - apply get_referenced_objects_final.
  - intros pre op Hcode Hop. unfold final_state.
    rewrite Hcode, after_steps_app.
    set (before := after_steps rt code context pre (entry h)).
    unfold after_steps; simpl. unfold after_step.
    rewrite step_unfold, (dispatch_default rt context op before Hop). simpl.
    destruct (advance_line_fields op before) as (Ht & Hr & _).
    unfold commit. rewrite Ht.
    destruct (is_None (tos before)) eqn:E; simpl.
    + rewrite Ht, Hr, app_nil_r. split; [| reflexivity].
      destruct (tos before); simpl in E; congruence.
    + rewrite Hr. auto.
Qed.

Lemma returns_refs_as_left_by_last_instruction_witness :
  (instructions (ex_code [ex_op "LOAD_GLOBAL" "g"; ex_op "RETURN_VALUE" ""])
     = [ex_op "LOAD_GLOBAL" "g"] ++ [ex_op "RETURN_VALUE" ""]
   /\ str_in (opname (ex_op "RETURN_VALUE" "")) named_opcodes = false)
  /\ tos (final_state ex_rt
            (ex_code [ex_op "LOAD_GLOBAL" "g"; ex_op "RETURN_VALUE" ""])
            ex_context ex_heap) = VNone
  /\ refs (final_state ex_rt
             (ex_code [ex_op "LOAD_GLOBAL" "g"; ex_op "RETURN_VALUE" ""])
             ex_context ex_heap) = [] ++ [VInt 42].
Proof.
  split; [split; reflexivity |].
  destruct (returns_refs_as_left_by_last_instruction ex_rt
              (ex_code [ex_op "LOAD_GLOBAL" "g"; ex_op "RETURN_VALUE" ""])
              ex_context ex_heap) as [_ H].
  exact (H [ex_op "LOAD_GLOBAL" "g"] (ex_op "RETURN_VALUE" "") eq_refl eq_refl).
Defined.

(* ===================================================================== *)
(** ** What an exception leaves behind                                    *)
(* ===================================================================== *)

(** C4, as stated, fails: the attribute lookup [o.missing] raises, one
    warning is emitted, and [tos] still holds the receiver [o]
    afterwards; the return that follows commits it. *)
Lemma failed_lookup_keeps_receiver :
  tos (final_state ex_rt
         (ex_code [ex_op "LOAD_GLOBAL" "o"; ex_op "LOAD_ATTR" "missing"])
         ex_context ex_heap) = VObj 1
  /\ map w_error
       (warned (final_state ex_rt
                  (ex_code [ex_op "LOAD_GLOBAL" "o"; ex_op "LOAD_ATTR" "missing"])
                  ex_context ex_heap)) = [AttributeError "missing"]
  /\ fst (get_referenced_objects ex_rt
            (ex_code [ex_op "LOAD_GLOBAL" "o"; ex_op "LOAD_ATTR" "missing";
                      ex_op "RETURN_VALUE" ""]) ex_context ex_heap)
     = inr [VObj 1].
Proof. vm_compute. repeat split; reflexivity. Qed.

(** C4, amended.  When the dispatch of an instruction raises, the loop
    turn ends normally; [tos], [refs] and the heap are exactly what they
    were before the instruction, and one warning, carrying the line
    known at that instruction and the exception, has been added.  In
    particular [tos] is not cleared. *)
Theorem exception_leaves_register_untouched (rt : Runtime) (code : Code)
    (context : CodeContext) (op : Instruction) (st : WalkState)
    (e : Exception) (st1 : WalkState) :
  dispatch rt context op st = (inl e, st1) ->
  step rt code context op st = (inr tt, after_step rt code context st op)
  /\ tos (after_step rt code context st op) = tos st
  /\ refs (after_step rt code context st op) = refs st
  /\ heap (after_step rt code context st op) = heap st
  /\ warned (after_step rt code context st op) =
       warned st ++ [ {| w_filename := co_filename code;
                         w_lineno := lineno (advance_line op st);
                         w_name := co_name code;
                         w_error := e |} ].
Proof.
  intros H. split; [apply step_returns |].
  unfold after_step. rewrite step_unfold, H. simpl.
  apply dispatch_raises in H. subst st1.
  unfold advance_line. destruct (starts_line op); simpl; auto.
Qed.

Lemma exception_leaves_register_untouched_witness :
  dispatch ex_rt ex_context (ex_op "LOAD_ATTR" "missing") (ex_state (VObj 1))
    = (inl (AttributeError "missing"), ex_state (VObj 1))
  /\ tos (after_step ex_rt (ex_code []) ex_context (ex_state (VObj 1))
            (ex_op "LOAD_ATTR" "missing")) = tos (ex_state (VObj 1)).
Proof.
  split; [reflexivity |].
  apply (exception_leaves_register_untouched ex_rt (ex_code []) ex_context
           (ex_op "LOAD_ATTR" "missing") (ex_state (VObj 1))
           (AttributeError "missing") (ex_state (VObj 1)) eq_refl).
Defined.

(* ===================================================================== *)
(** ** Storing a local                                                    *)
(* ===================================================================== *)

(** C5, as stated, fails: with the pending value 0 (a falsy value), a
    STORE_FAST stores nothing into [varnames]; the value is appended to
    [refs] instead. *)
Lemma store_fast_of_zero_commits :
  dispatch ex_rt ex_context (ex_op "STORE_FAST" "y") (ex_state (VInt 0))
    = (inr tt, with_refs (ex_state VNone) [VInt 0])
  /\ deref (heap (with_refs (ex_state VNone) [VInt 0])) (varnames ex_context)
       !! "y" = None.
Proof. split; reflexivity. Qed.

(** C5, amended.  For every STORE_FAST instruction with operand [name]
    processed while [tos] holds a value that Python counts as true, the
    walker stores that value under [name] in the dictionary [varnames]
    refers to, clears [tos] and appends nothing to [refs]. *)
Theorem store_fast_stores_truthy (rt : Runtime) (context : CodeContext)
    (op : Instruction) (st : WalkState) :
  opname op = "STORE_FAST" ->
  truth rt (tos st) = inr true ->
  exists st1,
    dispatch rt context op st = (inr tt, st1)
    /\ deref (heap st1) (varnames context)
       = <[argval op := tos st]> (deref (heap st) (varnames context))
    /\ (forall l, l <> varnames context -> heap st1 !! l = heap st !! l)
    /\ tos st1 = VNone
    /\ refs st1 = refs st.
Proof.
  intros Hop Ht.
  destruct (advance_line_fields op st) as (Et & Er & Eh & _).
  rewrite (dispatch_store_fast rt context op st Hop). cbv zeta.
  rewrite Et, Eh, Ht. eexists. split; [reflexivity |]. simpl.
  repeat split.
  - unfold deref. now rewrite lookup_insert_eq.
  - intros l Hl. now rewrite lookup_insert_ne by congruence.
  - exact Er.
Qed.

Lemma store_fast_stores_truthy_witness :
  (opname (ex_op "STORE_FAST" "y") = "STORE_FAST"
   /\ truth ex_rt (tos (ex_state (VInt 42))) = inr true)
  /\ exists st1,
       dispatch ex_rt ex_context (ex_op "STORE_FAST" "y") (ex_state (VInt 42))
         = (inr tt, st1)
       /\ deref (heap st1) (varnames ex_context)
          = <["y" := VInt 42]> (deref ex_heap (varnames ex_context))
       /\ (forall l, l <> varnames ex_context -> heap st1 !! l = ex_heap !! l)
       /\ tos st1 = VNone
       /\ refs st1 = [].
Proof.
  split; [split; reflexivity |].
  apply (store_fast_stores_truthy ex_rt ex_context (ex_op "STORE_FAST" "y")
           (ex_state (VInt 42))); reflexivity.
Defined.

(* ===================================================================== *)
(** ** The context builder                                                *)
(* ===================================================================== *)

(** A name that is not among the names consumed keeps its binding. *)
Lemma update_from_closure_other (names : list string) :
  forall (closure : list cell) (d d' : dict) (n : string),
    update_from_closure d names closure = inr d' ->
    ~ In n names ->
    d' !! n = d !! n.
Proof.
  induction names as [| m names IH]; intros closure d d' n H Hn.
  - simpl in H. destruct closure; inversion H; reflexivity.
  - destruct closure as [| [v |] closure]; simpl in H.
    + inversion H; reflexivity.
    + rewrite (IH _ _ _ n H) by (intros Hin; apply Hn; now right).
      apply lookup_insert_ne. intros ->. apply Hn. now left.
    + discriminate.
Qed.

(** The name at position [i] is bound to the contents of the cell at
    position [i], unless the same name occurs again further right. *)
Lemma update_from_closure_pairs (names : list string) :
  forall (closure : list cell) (d d' : dict) (i : nat) (n : string) (c : cell),
    update_from_closure d names closure = inr d' ->
    names !! i = Some n ->
    closure !! i = Some c ->
    (forall j, i < j -> names !! j <> Some n) ->
    d' !! n = c /\ c <> None.
Proof.
  induction names as [| m names IH]; intros closure d d' i n c H Hn Hc Hlast.
  - destruct i; discriminate.
  - destruct closure as [| [v |] closure]; simpl in H.
    + destruct i; discriminate.
    + destruct i as [| i]; simpl in Hn, Hc.
      * inversion Hn; inversion Hc; subst. split; [| discriminate].
        rewrite (update_from_closure_other _ _ _ _ n H).
        -- apply lookup_insert_eq.
        -- intros Hin. apply list_elem_of_In, list_elem_of_lookup in Hin.
           destruct Hin as [j Hj]. apply (Hlast (S j)); [lia | exact Hj].
      * apply (IH closure _ d' i n c H Hn Hc).
        intros j Hj. apply (Hlast (S j)). lia.
    + discriminate.
Qed.

(** A successful update read every cell it paired. *)
Lemma update_from_closure_total (names : list string) :
  forall (closure : list cell) (d d' : dict) (i : nat),
    update_from_closure d names closure = inr d' ->
    i < length names -> i < length closure ->
    exists v, closure !! i = Some (Some v).
Proof.
  induction names as [| m names IH]; intros closure d d' i H Hi Hc.
  - simpl in Hi. lia.
  - destruct closure as [| [v |] closure]; simpl in *; try lia; try discriminate.
    destruct i as [| i]; [eauto |].
    apply (IH closure _ d' i H); lia.
Qed.

(** The addresses [get_code_context] allocates. *)
Lemma get_code_context_success func h context h1 :
  get_code_context func h = inr (context, h1) ->
  exists d,
    build_cells func = inr d
    /\ globals context = f_globals func
    /\ (cells context ∉ dom h)
    /\ (varnames context ∉ dom h)
    /\ varnames context <> cells context
    /\ h1 = <[varnames context := build_varnames func]> (<[cells context := d]> h).
Proof.
  unfold get_code_context. destruct (build_cells func) as [e | d]; [discriminate |].
  intros H. inversion H; subst; clear H. simpl. exists d.
  pose proof (is_fresh (dom h)) as F1.
  pose proof (is_fresh (dom (<[fresh (dom h) := d]> h))) as F2.
  rewrite dom_insert_L in F2.
  repeat split; auto.
  - rewrite dom_insert_L. set_solver.
  - rewrite dom_insert_L. set_solver.
Qed.

Lemma get_code_context_failure func h e :
  get_code_context func h = inl e <-> build_cells func = inl e.
Proof.
  unfold get_code_context. destruct (build_cells func); split; congruence.
Qed.

Lemma deref_insert_eq (h : Heap) l d : deref (<[l := d]> h) l = d.
Proof. unfold deref. now rewrite lookup_insert_eq. Qed.

Lemma deref_insert_ne (h : Heap) l l' d :
  l <> l' -> deref (<[l := d]> h) l' = deref h l'.
Proof. intros. unfold deref. now rewrite lookup_insert_ne. Qed.

(** C6, as stated, fails: with no free-variable names and a closure of
    one cell the two lists differ in length, and [get_code_context]
    succeeds. *)
Lemma extra_cell_is_not_rejected :
  length (co_freevars (f_code ex_func_extra_cell)) <> length [Some (VInt 1)]
  /\ f_closure ex_func_extra_cell = Some [Some (VInt 1)]
  /\ get_code_context ex_func_extra_cell ex_heap
     = inr ({| globals := 0; cells := 3; varnames := 4 |},
            <[4 := ∅]> (<[3 := ∅]> ex_heap))
  /\ exists st, get_references ex_rt ex_func_extra_cell ex_heap = inr ([], st).
Proof.
  split; [simpl; lia |]. split; [reflexivity |]. split.
  - vm_compute. reflexivity.
  - eexists. vm_compute. reflexivity.
Qed.

(** C6, amended.  [get_code_context] fails with the assertion error,
    and [get_references] passes that error on without walking any
    instruction, whenever the list of free-variable names is not empty
    and its length differs from that of the closure.  When it succeeds,
    every free-variable name is bound in [cells] to the contents of the
    cell at the same position of the closure (for a name listed twice,
    the rightmost position counts). *)
Theorem context_pairs_freevars_with_cells (rt : Runtime) (func : Func) (h : Heap) :
  (forall closure,
      co_freevars (f_code func) <> [] ->
      f_closure func = Some closure ->
      length (co_freevars (f_code func)) <> length closure ->
      get_code_context func h = inl AssertionError
      /\ get_references rt func h = inl AssertionError)
  /\ (forall context h1 i n,
      get_code_context func h = inr (context, h1) ->
      co_freevars (f_code func) !! i = Some n ->
      (forall j, i < j -> co_freevars (f_code func) !! j <> Some n) ->
      exists closure v,
        f_closure func = Some closure
        /\ closure !! i = Some (Some v)
        /\ deref h1 (cells context) !! n = Some v).
Proof.
  split.
  - intros closure Hne Hcl Hlen.
    assert (get_code_context func h = inl AssertionError) as E.
    { apply get_code_context_failure. unfold build_cells.
      destruct (co_freevars (f_code func)) as [| x xs] eqn:F; [congruence |].
      rewrite Hcl. apply Nat.eqb_neq in Hlen. now rewrite Hlen. }
    split; [exact E |]. unfold get_references. now rewrite E.
  - intros context h1 i n Hctx Hi Hlast.
    apply get_code_context_success in Hctx
      as (d & Hd & _ & _ & _ & Hne & ->).
    unfold build_cells in Hd.
    destruct (co_freevars (f_code func)) as [| x xs] eqn:F; [destruct i; discriminate |].
    destruct (f_closure func) as [closure |]; [| discriminate].
    destruct (length (x :: xs) =? length closure)%nat eqn:L; [| discriminate].
    apply Nat.eqb_eq in L.
    pose proof (lookup_lt_Some _ _ _ Hi) as Hlt.
    destruct (update_from_closure_total _ _ _ _ i Hd Hlt ltac:(lia)) as [v Hv].
    exists closure, v. split; [reflexivity |]. split; [exact Hv |].
    rewrite deref_insert_ne by exact Hne. rewrite deref_insert_eq.
    now destruct (update_from_closure_pairs _ _ _ _ i n (Some v) Hd Hi Hv Hlast).
Qed.

Lemma context_pairs_freevars_with_cells_witness :
  (co_freevars (f_code ex_func_two_cells) <> []
   /\ f_closure ex_func_two_cells = Some [Some (VStr "42"); Some (VInt 1)]
   /\ length (co_freevars (f_code ex_func_two_cells))
      <> length [Some (VStr "42"); Some (VInt 1)])
  /\ get_references ex_rt ex_func_two_cells ex_heap = inl AssertionError
  /\ exists closure v,
       f_closure ex_func_closure = Some closure
       /\ closure !! 0 = Some (Some v)
       /\ deref (<[4 := ∅]> (<[3 := {[ "free_val" := VStr "42" ]}]> ex_heap)) 3
            !! "free_val" = Some v.
Proof.
  split; [| split].
  - split; [discriminate |]. split; [reflexivity | simpl; lia].
  - destruct (context_pairs_freevars_with_cells ex_rt ex_func_two_cells ex_heap)
      as [H _].
    apply (H [Some (VStr "42"); Some (VInt 1)]);
      [discriminate | reflexivity | simpl; lia].
  - destruct (context_pairs_freevars_with_cells ex_rt ex_func_closure ex_heap)
      as [_ H].
    apply (H {| globals := 0; cells := 3; varnames := 4 |}
             (<[4 := ∅]> (<[3 := {[ "free_val" := VStr "42" ]}]> ex_heap))
             0 "free_val").
    + vm_compute. reflexivity.
    + reflexivity.
    + intros [| j] Hj; [lia | discriminate].
Defined.

(* ===================================================================== *)
(** ** What a walk writes                                                 *)
(* ===================================================================== *)

Section Frame.

Variable rt : Runtime.
Variable code : Code.
Variable context : CodeContext.

Lemma after_step_frame op st l :
  l <> varnames context ->
  heap (after_step rt code context st op) !! l = heap st !! l.
Proof.
  intros Hl. unfold after_step. rewrite step_unfold.
  destruct (dispatch rt context op st) as [[e | u] st1] eqn:E;
    apply dispatch_frame in E as [_ E]; simpl; now apply E.
Qed.

Lemma after_steps_frame ops : forall st l,
  l <> varnames context ->
  heap (after_steps rt code context ops st) !! l = heap st !! l.
Proof.
  induction ops as [| op rest IH]; intros st l Hl; simpl.
  - reflexivity.
  - unfold after_steps in *. simpl. rewrite IH by exact Hl.
    now apply after_step_frame.
Qed.

End Frame.

(** C7, as stated, fails: the walk of [y = g; return y] leaves the
    binding [y = 42] in the dictionary the context refers to; the next
    walk given the same context, of [return y], reads it and returns
    [42], where on the untouched heap it returns nothing. *)
Lemma local_bindings_outlive_the_walk :
  deref ex_heap (varnames ex_context) !! "y" = None
  /\ deref (heap (final_state ex_rt (ex_code ex_ops_store) ex_context ex_heap))
          (varnames ex_context) !! "y" = Some (VInt 42)
  /\ fst (get_referenced_objects ex_rt (ex_code ex_ops_load) ex_context
            (heap (final_state ex_rt (ex_code ex_ops_store) ex_context ex_heap)))
     = inr [VInt 42]
  /\ fst (get_referenced_objects ex_rt (ex_code ex_ops_load) ex_context ex_heap)
     = inr [].
Proof. vm_compute. repeat split; reflexivity. Qed.

(** C7, amended.  A walk writes to one dictionary only, the one
    [varnames] refers to, and writes to it in place: every other
    address of the heap holds after the walk what it held before, so
    [globals] and [cells] are not mutated when they are objects other
    than [varnames].  The walker does not copy or discard [varnames];
    what keeps its writes from being seen is that [get_code_context]
    allocates a new dictionary each time: after [get_references], every
    object that existed before the call is unchanged. *)
Theorem walk_writes_only_varnames (rt : Runtime) (code : Code)
    (context : CodeContext) (func : Func) (h : Heap) :
  (forall l, l <> varnames context ->
     heap (final_state rt code context h) !! l = h !! l)
  /\ (separate context ->
      deref (heap (final_state rt code context h)) (globals context)
        = deref h (globals context)
      /\ deref (heap (final_state rt code context h)) (cells context)
        = deref h (cells context))
  /\ (forall r st,
      get_references rt func h = inr (r, st) ->
      forall l, l ∈ dom h -> heap st !! l = h !! l).
Proof.
  split; [| split].
  - intros l Hl. unfold final_state. now rewrite after_steps_frame.
  - intros [Hg Hc]. unfold final_state, deref.
    rewrite !after_steps_frame by congruence. auto.
  - intros r st H l Hl. unfold get_references in H.
    destruct (get_code_context func h) as [e | [ctx h1]] eqn:E; [discriminate |].
    rewrite get_referenced_objects_final in H. inversion H; subst; clear H.
    apply get_code_context_success in E as (d & _ & _ & Hc & Hv & _ & ->).
    unfold final_state. rewrite after_steps_frame by (intros ->; contradiction).
    simpl. rewrite !lookup_insert_ne by (intros <-; contradiction). reflexivity.
Qed.

Lemma walk_writes_only_varnames_witness :
  separate ex_context
  /\ deref (heap (final_state ex_rt (ex_code ex_ops_store) ex_context ex_heap))
       (globals ex_context) = deref ex_heap (globals ex_context)
  /\ deref (heap (final_state ex_rt (ex_code ex_ops_store) ex_context ex_heap))
       (cells ex_context) = deref ex_heap (cells ex_context).
Proof.
  assert (separate ex_context) as S by (split; discriminate).
  split; [exact S |].
  destruct (walk_writes_only_varnames ex_rt (ex_code ex_ops_store) ex_context
              ex_func_closure ex_heap) as (_ & H & _).
  exact (H S).
Defined.

(* ===================================================================== *)
(** ** Determinism                                                        *)
(* ===================================================================== *)

(** Every instruction falls into one of the eight arms of [dispatch]. *)
Lemma opcode_cases (op : Instruction) :
  str_in (opname op) ["LOAD_GLOBAL"; "LOAD_NAME"] = true
  \/ str_in (opname op) ["LOAD_DEREF"; "LOAD_CLOSURE"] = true
  \/ opname op = "IMPORT_NAME"
  \/ str_in (opname op) ["LOAD_METHOD"; "LOAD_ATTR"; "IMPORT_FROM"] = true
  \/ opname op = "DELETE_FAST"
  \/ opname op = "STORE_FAST"
  \/ opname op = "LOAD_FAST"
  \/ str_in (opname op) named_opcodes = false.
Proof.
  destruct (str_in (opname op) named_opcodes) eqn:E; [| tauto].
  apply str_in_true in E. simpl in E.
  repeat (destruct E as [E | E]; [rewrite <- E; simpl; tauto |]).
  contradiction.
Qed.

Section Agreement.

Variable rt : Runtime.
Variables c1 c2 : CodeContext.
Hypothesis sep1 : separate c1.
Hypothesis sep2 : separate c2.

Lemma agree_advance_line op st1 st2 :
  agree c1 c2 st1 st2 -> agree c1 c2 (advance_line op st1) (advance_line op st2).
Proof.
  unfold agree, advance_line. intros (? & ? & ? & ? & ?).
  destruct (starts_line op); simpl; auto.
Qed.

Lemma agree_push v st1 st2 :
  agree c1 c2 st1 st2 -> agree c1 c2 (push v st1) (push v st2).
Proof.
  unfold agree, push. intros (Ht & ? & Hr & ? & ?). rewrite Ht, Hr.
  destruct (is_None (tos st2)); simpl; auto.
Qed.

Lemma agree_commit st1 st2 :
  agree c1 c2 st1 st2 -> agree c1 c2 (commit st1) (commit st2).
Proof.
  unfold agree, commit. intros (Ht & ? & Hr & ? & ?). rewrite Ht, Hr.
  destruct (is_None (tos st2)); simpl; auto.
Qed.

Lemma same_bindings_write (h1 h2 : Heap) (d : dict) :
  same_bindings c1 c2 h1 h2 ->
  same_bindings c1 c2 (<[varnames c1 := d]> h1) (<[varnames c2 := d]> h2).
Proof.
  destruct sep1 as [Hg1 Hc1], sep2 as [Hg2 Hc2].
  unfold same_bindings. intros (Hg & Hc & Hv).
  rewrite !deref_insert_eq, !deref_insert_ne by assumption. auto.
Qed.

(** One instruction, dispatched from agreeing states, gives the same
    outcome and agreeing states. *)
Lemma dispatch_agree op st1 st2 :
  agree c1 c2 st1 st2 ->
  fst (dispatch rt c1 op st1) = fst (dispatch rt c2 op st2)
  /\ agree c1 c2 (snd (dispatch rt c1 op st1)) (snd (dispatch rt c2 op st2)).
Proof.
  intros A. apply (agree_advance_line op) in A.
  pose proof A as (Ht & Hl & Hr & Hw & Hb).
  pose proof Hb as (Hg & Hc & Hv).
  destruct (opcode_cases op) as [H | [H | [H | [H | [H | [H | [H | H]]]]]]].
  - rewrite !dispatch_load_global by exact H. cbv zeta. rewrite Hg. simpl.
    split; [reflexivity | now apply agree_push].
  - rewrite !dispatch_load_deref by exact H. cbv zeta. rewrite Hc.
    destruct (deref (heap (advance_line op st2)) (cells c2) !! argval op); simpl;
      (split; [reflexivity | auto using agree_push]).
  - rewrite !dispatch_import_name by exact H. cbv zeta.
    destruct (import_module rt (argval op)) as [e | m];
      [destruct (is_ImportError e) |]; simpl;
      (split; [reflexivity | auto using agree_push]).
  - rewrite !dispatch_load_attr by exact H. cbv zeta. rewrite Ht.
    destruct (tos (advance_line op st2)) eqn:Et; simpl;
      try destruct (getattr rt _ _); simpl;
      (split; [reflexivity |]); auto;
      unfold agree; simpl; rewrite ?Hr, ?Ht, ?Et; auto 10.
  - rewrite !dispatch_delete_fast by exact H. cbv zeta. rewrite Ht, Hv.
    destruct (truth rt (tos (advance_line op st2))) as [e | []]; simpl;
      [auto | | auto using agree_commit].
    destruct (deref (heap (advance_line op st2)) (varnames c2) !! argval op);
      simpl; [| auto].
    split; [reflexivity |]. unfold agree; simpl.
    repeat split; auto; now apply same_bindings_write.
  - rewrite !dispatch_store_fast by exact H. cbv zeta. rewrite Ht, Hv.
    destruct (truth rt (tos (advance_line op st2))) as [e | []]; simpl;
      [auto | | auto using agree_commit].
    split; [reflexivity |]. unfold agree; simpl.
    repeat split; auto; now apply same_bindings_write.
  - rewrite !dispatch_load_fast by exact H. cbv zeta. rewrite Hv.
    destruct (deref (heap (advance_line op st2)) (varnames c2) !! argval op);
      simpl; auto using agree_push, agree_commit.
  - rewrite !dispatch_default by exact H. simpl. auto using agree_commit.
Qed.

Lemma after_step_agree code op st1 st2 :
  agree c1 c2 st1 st2 ->
  agree c1 c2 (after_step rt code c1 st1 op) (after_step rt code c2 st2 op).
Proof.
  intros A. unfold after_step. rewrite !step_unfold.
  destruct (dispatch_agree op st1 st2 A) as [E B].
  destruct (dispatch rt c1 op st1) as [[e1 | u1] s1],
           (dispatch rt c2 op st2) as [[e2 | u2] s2]; simpl in *;
    try discriminate; try exact B.
  inversion E; subst.
  destruct B as (Ht & Hl & Hr & Hw & Hb).
  unfold agree, warned_with; simpl. rewrite Hl, Hw. auto.
Qed.

Lemma after_steps_agree code ops : forall st1 st2,
  agree c1 c2 st1 st2 ->
  agree c1 c2 (after_steps rt code c1 ops st1) (after_steps rt code c2 ops st2).
Proof.
  unfold after_steps.
  induction ops as [| op rest IH]; intros st1 st2 A; simpl.
  - exact A.
  - apply IH. now apply after_step_agree.
Qed.

End Agreement.

Lemma final_state_agree rt code c1 c2 h1 h2 :
  separate c1 -> separate c2 ->
  same_bindings c1 c2 h1 h2 ->
  agree c1 c2 (final_state rt code c1 h1) (final_state rt code c2 h2).
Proof.
  intros S1 S2 B. unfold final_state.
  apply after_steps_agree; [exact S1 | exact S2 |].
  unfold agree, entry; simpl. auto.
Qed.

(** What a built context holds depends on the function only. *)
Lemma get_code_context_contents func h context h1 :
  get_code_context func h = inr (context, h1) ->
  globals context = f_globals func
  /\ build_cells func = inr (deref h1 (cells context))
  /\ deref h1 (varnames context) = build_varnames func
  /\ (forall l, l ∈ dom h -> h1 !! l = h !! l)
  /\ (f_globals func ∈ dom h -> separate context).
Proof.
  intros H. apply get_code_context_success in H as (d & Hd & Hg & Hc & Hv & Hne & ->).
  rewrite deref_insert_eq, deref_insert_ne, deref_insert_eq by exact Hne.
  repeat split; auto.
  - intros l Hl. rewrite !lookup_insert_ne by (intros <-; contradiction). reflexivity.
  - intros E. apply Hv. now rewrite E, Hg.
Qed.

(** Two successive calls of [get_references] on one function. *)
Lemma get_references_again rt func h r st :
  f_globals func ∈ dom h ->
  get_references rt func h = inr (r, st) ->
  exists st',
    get_references rt func (heap st) = inr (r, st')
    /\ warned st' = warned st.
Proof.
  intros Hg H. unfold get_references in H |- *.
  destruct (get_code_context func h) as [e | [k1 g1]] eqn:E1; [discriminate |].
  rewrite get_referenced_objects_final in H. inversion H; subst; clear H.
  set (fin := final_state rt (f_code func) k1 g1).
  pose proof (get_code_context_success _ _ _ _ E1)
    as (d & Hd & G1 & _ & Hv1 & _ & _).
  apply get_code_context_contents in E1 as (_ & C1 & V1 & F1 & S1).
  specialize (S1 Hg).
  assert (f_globals func <> varnames k1) as Hgv by (intros E; now rewrite E in Hg).
  assert (heap fin !! f_globals func = h !! f_globals func) as Hfin.
  { unfold fin, final_state. rewrite after_steps_frame by exact Hgv. now apply F1. }
  assert (f_globals func ∈ dom (heap fin)) as Hg'.
  { apply elem_of_dom. rewrite Hfin. now apply elem_of_dom. }
  destruct (get_code_context func (heap fin)) as [e | [k2 g2]] eqn:E2.
  { apply get_code_context_failure in E2. congruence. }
  apply get_code_context_contents in E2 as (G2 & C2 & V2 & F2 & S2).
  specialize (S2 Hg').
  rewrite get_referenced_objects_final.
  assert (same_bindings k1 k2 g1 g2) as B.
  { unfold same_bindings. repeat split.
    - rewrite G1, G2. unfold deref.
      now rewrite (F2 _ Hg'), Hfin, (F1 _ Hg).
    - congruence.
    - congruence. }
  destruct (final_state_agree rt (f_code func) k1 k2 g1 g2 S1 S2 B)
    as (_ & _ & Hr & Hw & _).
  fold fin in Hr, Hw. eexists. rewrite <- Hr. split; [reflexivity | now symmetry].
Qed.

(** C8.  Extraction is a function of the stream and of the bindings:
    two walks of the same code whose contexts hold equal [globals],
    [cells] and [varnames] bindings (each [varnames] an object of its
    own) return the same list and emit the same warnings, wherever the
    dictionaries live.  Building a context changes no existing object,
    and what the built context holds depends on the function only.  So
    two successive calls of [get_references] on one function return the
    same list. *)
Theorem extraction_is_deterministic (rt : Runtime) :
  (forall code c1 c2 h1 h2,
      separate c1 -> separate c2 ->
      same_bindings c1 c2 h1 h2 ->
      fst (get_referenced_objects rt code c1 h1)
        = fst (get_referenced_objects rt code c2 h2)
      /\ warned (snd (get_referenced_objects rt code c1 h1))
        = warned (snd (get_referenced_objects rt code c2 h2)))
  /\ (forall func h context h1,
      get_code_context func h = inr (context, h1) ->
      forall l, l ∈ dom h -> h1 !! l = h !! l)
  /\ (forall func h1 h2,
      match get_code_context func h1, get_code_context func h2 with
      | inl e1, inl e2 => e1 = e2
      | inr (k1, g1), inr (k2, g2) =>
          globals k1 = globals k2
          /\ deref g1 (cells k1) = deref g2 (cells k2)
          /\ deref g1 (varnames k1) = deref g2 (varnames k2)
      | _, _ => False
      end)
  /\ (forall func h r st,
      f_globals func ∈ dom h ->
      get_references rt func h = inr (r, st) ->
      exists st',
        get_references rt func (heap st) = inr (r, st')
        /\ warned st' = warned st).
Proof.
  split; [| split; [| split]].
  - intros code c1 c2 h1 h2 S1 S2 B.
    rewrite !get_referenced_objects_final. simpl.
    destruct (final_state_agree rt code c1 c2 h1 h2 S1 S2 B)
      as (_ & _ & Hr & Hw & _).
    now rewrite Hr, Hw.
  - intros func h context h1 H. now apply get_code_context_contents in H.
  - intros func h1 h2.
    destruct (get_code_context func h1) as [e1 | [k1 g1]] eqn:E1,
             (get_code_context func h2) as [e2 | [k2 g2]] eqn:E2.
    + apply get_code_context_failure in E1, E2. congruence.
    + apply get_code_context_failure in E1.
      apply get_code_context_contents in E2 as (_ & E2 & _). congruence.
    + apply get_code_context_failure in E2.
      apply get_code_context_contents in E1 as (_ & E1 & _). congruence.
    + apply get_code_context_contents in E1 as (G1 & C1 & V1 & _).
      apply get_code_context_contents in E2 as (G2 & C2 & V2 & _).
      repeat split; congruence.
  - apply get_references_again.
Qed.

Lemma extraction_is_deterministic_witness :
  (separate ex_context /\ separate ex_context_moved
   /\ same_bindings ex_context ex_context_moved ex_heap ex_heap_moved)
  /\ fst (get_referenced_objects ex_rt (ex_code ex_ops_store) ex_context ex_heap)
     = fst (get_referenced_objects ex_rt (ex_code ex_ops_store)
              ex_context_moved ex_heap_moved).
Proof.
  assert (separate ex_context) as S1 by (split; discriminate).
  assert (separate ex_context_moved) as S2 by (split; discriminate).
  assert (same_bindings ex_context ex_context_moved ex_heap ex_heap_moved) as B
    by (repeat split; reflexivity).
  split; [auto |].
  destruct (extraction_is_deterministic ex_rt) as (H & _).
  exact (proj1 (H (ex_code ex_ops_store) ex_context ex_context_moved
                  ex_heap ex_heap_moved S1 S2 B)).
Defined.

(* ===================================================================== *)
(** ** Strings and None in the register                                   *)
(* ===================================================================== *)

Lemma push_None_commit st : push VNone st = commit st.
Proof. unfold push, commit. destruct st as [t l r h w]; destruct t; reflexivity. Qed.

(** Whatever [dispatch] appends to [refs] is not [None]. *)
Lemma dispatch_appends_no_None rt context op st r st1 :
  dispatch rt context op st = (r, st1) ->
  ~ In VNone (refs st) -> ~ In VNone (refs st1).
Proof.
  rewrite dispatch_advance.
  destruct (advance_line_fields op st) as (_ & <- & _).
  generalize (advance_line op st). clear st.
  intros st. unfold dispatch; simpl. unfold_monad.
  repeat case_match; intros; simplify_eq; simpl; try assumption;
    rewrite in_app_iff; simpl; intros [? | [? | []]];
    try contradiction; try discriminate;
    match goal with
    | E : is_None (tos ?s) = false, H : tos ?s = VNone |- _ =>
        rewrite H in E; discriminate
    | E : tos ?s = _, H : tos ?s = VNone |- _ => rewrite E in H; discriminate
    end.
Qed.

Lemma after_steps_no_None rt code context ops : forall st,
  ~ In VNone (refs st) -> ~ In VNone (refs (after_steps rt code context ops st)).
Proof.
  unfold after_steps.
  induction ops as [| op rest IH]; intros st H; simpl; [exact H |].
  apply IH. unfold after_step. rewrite step_unfold.
  destruct (dispatch rt context op st) as [[e | u] st1] eqn:E; simpl;
    now apply (dispatch_appends_no_None _ _ _ _ _ _ E).
Qed.

Lemma after_step_ok rt code context op st st1 :
  dispatch rt context op st = (inr tt, st1) ->
  after_step rt code context st op = st1.
Proof. intros H. unfold after_step. now rewrite step_unfold, H. Qed.

(** The two-instruction sequence [LOAD_GLOBAL n; LOAD_ATTR a] over a
    global bound to the string [s]. *)
Lemma load_global_string_then_attr rt code context op1 op2 s st :
  opname op1 = "LOAD_GLOBAL" ->
  opname op2 = "LOAD_ATTR" ->
  deref (heap st) (globals context) !! argval op1 = Some (VStr s) ->
  after_steps rt code context [op1; op2] st
    = with_tos (advance_line op2 (push (VStr s) (advance_line op1 st)))
               (VStr (s ++ "." ++ argval op2)).
Proof.
  intros H1 H2 Hs. unfold after_steps; simpl.
  destruct (advance_line_fields op1 st) as (_ & _ & Eh & _).
  rewrite (after_step_ok rt code context op1 st
             (push (VStr s) (advance_line op1 st))).
  2:{ rewrite dispatch_load_global by (now rewrite H1).
      cbv zeta. now rewrite Eh, Hs. }
  apply after_step_ok.
  rewrite dispatch_load_attr by (now rewrite H2). cbv zeta.
  destruct (advance_line_fields op2 (push (VStr s) (advance_line op1 st)))
    as (Et & _).
  rewrite Et. reflexivity.
Qed.

(** C9, as stated, fails: the stream [LOAD_GLOBAL s; LOAD_ATTR a],
    with [s = "str"], produces no output entry; ["str.a"] is left
    pending in [tos]. *)
Lemma string_receiver_left_pending :
  get_referenced_objects ex_rt
    (ex_code [ex_op "LOAD_GLOBAL" "s"; ex_op "LOAD_ATTR" "a"]) ex_context ex_heap
  = (inr [], with_tos (entry ex_heap) (VStr "str.a")).
Proof. vm_compute. reflexivity. Qed.

(** C9, amended.  For every context whose [globals] bind [n] to a
    string [s], the sequence [LOAD_GLOBAL n; LOAD_ATTR a] leaves the
    concatenation [s + "." + a] in [tos], whatever the runtime would
    answer for an attribute lookup on [s], and emits no warning.  The
    stream made of these two instructions alone returns the empty list;
    followed by an instruction of no named opcode, it returns the single
    entry [s + "." + a]. *)
Theorem string_global_extended_by_concatenation (rt : Runtime)
    (code code3 : Code) (context : CodeContext) (h : Heap)
    (op1 op2 op3 : Instruction) (s : string) :
  opname op1 = "LOAD_GLOBAL" ->
  opname op2 = "LOAD_ATTR" ->
  str_in (opname op3) named_opcodes = false ->
  deref h (globals context) !! argval op1 = Some (VStr s) ->
  instructions code = [op1; op2] ->
  instructions code3 = [op1; op2; op3] ->
  fst (get_referenced_objects rt code context h) = inr []
  /\ tos (final_state rt code context h) = VStr (s ++ "." ++ argval op2)
  /\ warned (final_state rt code context h) = []
  /\ fst (get_referenced_objects rt code3 context h)
     = inr [VStr (s ++ "." ++ argval op2)].
Proof.
  intros H1 H2 H3 Hs Hc Hc3.
  rewrite !get_referenced_objects_final. unfold final_state.
  rewrite Hc, Hc3. change [op1; op2; op3] with ([op1; op2] ++ [op3]).
  rewrite after_steps_app.
  rewrite !(load_global_string_then_attr rt _ context op1 op2 s (entry h) H1 H2 Hs).
  set (st1 := advance_line op1 (entry h)).
  set (st2 := advance_line op2 (push (VStr s) st1)).
  assert (refs st2 = [] /\ warned st2 = []) as [Er Ew].
  { destruct (advance_line_fields op2 (push (VStr s) st1)) as (_ & Er2 & _ & Ew2).
    destruct (advance_line_fields op1 (entry h)) as (Et & Er & _ & Ew).
    fold st1 in Et, Er, Ew. unfold st2. rewrite Er2, Ew2.
    unfold push. rewrite Et. simpl. auto. }
  simpl. repeat split; auto.
  - now rewrite Er.
  - erewrite after_step_ok by (apply dispatch_default; exact H3).
    destruct (advance_line_fields op3
                (with_tos st2 (VStr (s ++ "." ++ argval op2)))) as (Et & Er3 & _).
    unfold commit. rewrite Et. simpl. rewrite Er3. simpl. now rewrite Er.
Qed.

Lemma string_global_extended_by_concatenation_witness :
  (opname (ex_op "LOAD_GLOBAL" "s") = "LOAD_GLOBAL"
   /\ opname (ex_op "LOAD_ATTR" "a") = "LOAD_ATTR"
   /\ str_in (opname (ex_op "RETURN_VALUE" "")) named_opcodes = false
   /\ deref ex_heap (globals ex_context) !! "s" = Some (VStr "str"))
  /\ fst (get_referenced_objects ex_rt
            (ex_code [ex_op "LOAD_GLOBAL" "s"; ex_op "LOAD_ATTR" "a";
                      ex_op "RETURN_VALUE" ""]) ex_context ex_heap)
     = inr [VStr "str.a"].
Proof.
  split; [repeat split; reflexivity |].
  apply (string_global_extended_by_concatenation ex_rt
           (ex_code [ex_op "LOAD_GLOBAL" "s"; ex_op "LOAD_ATTR" "a"])
           (ex_code [ex_op "LOAD_GLOBAL" "s"; ex_op "LOAD_ATTR" "a";
                     ex_op "RETURN_VALUE" ""])
           ex_context ex_heap
           (ex_op "LOAD_GLOBAL" "s") (ex_op "LOAD_ATTR" "a")
           (ex_op "RETURN_VALUE" "") "str"); reflexivity.
Defined.

(** C10.  A reference that resolves to [None] is lost: no list that
    [get_referenced_objects] returns contains [None]; a LOAD_GLOBAL,
    LOAD_DEREF or LOAD_FAST whose name is bound to [None] leaves the
    very state the default arm would leave (the value pending before is
    committed, [tos] is empty); and a LOAD_ATTR met with [tos] empty
    appends its bare attribute name. *)
Theorem none_is_never_a_reference (rt : Runtime) (context : CodeContext) :
  (forall code h, ~ In VNone (refs (final_state rt code context h)))
  /\ (forall op st,
        (opname op = "LOAD_GLOBAL"
         /\ deref (heap st) (globals context) !! argval op = Some VNone)
        \/ (opname op = "LOAD_DEREF"
            /\ deref (heap st) (cells context) !! argval op = Some VNone)
        \/ (opname op = "LOAD_FAST"
            /\ deref (heap st) (varnames context) !! argval op = Some VNone) ->
        dispatch rt context op st = (inr tt, commit (advance_line op st))
        /\ tos (commit (advance_line op st)) = VNone)
  /\ (forall op st,
        opname op = "LOAD_ATTR" ->
        tos st = VNone ->
        dispatch rt context op st
          = (inr tt, with_refs (advance_line op st) (refs st ++ [VStr (argval op)]))
        /\ tos (with_refs (advance_line op st) (refs st ++ [VStr (argval op)]))
           = VNone).
Proof.
  split; [| split].
  - intros code h. unfold final_state. apply after_steps_no_None. simpl. tauto.
  - intros op st H.
    destruct (advance_line_fields op st) as (_ & _ & Eh & _).
    split.
    + rewrite <- push_None_commit.
      destruct H as [[Ho Hv] | [[Ho Hv] | [Ho Hv]]].
      * rewrite dispatch_load_global by (now rewrite Ho).
        cbv zeta. now rewrite Eh, Hv.
      * rewrite dispatch_load_deref by (now rewrite Ho).
        cbv zeta. now rewrite Eh, Hv.
      * rewrite dispatch_load_fast by exact Ho.
        cbv zeta. now rewrite Eh, Hv.
    + unfold commit. destruct (tos (advance_line op st)) eqn:E; simpl; auto.
  - intros op st Ho Ht.
    destruct (advance_line_fields op st) as (Et & Er & _).
    rewrite dispatch_load_attr by (now rewrite Ho).
    cbv zeta. rewrite Et, Ht, Er. simpl. now rewrite Et.
Qed.

Lemma none_is_never_a_reference_witness :
  (opname (ex_op "LOAD_GLOBAL" "n") = "LOAD_GLOBAL"
   /\ deref (heap (ex_state (VInt 42))) (globals ex_context) !! "n" = Some VNone)
  /\ dispatch ex_rt ex_context (ex_op "LOAD_GLOBAL" "n") (ex_state (VInt 42))
     = (inr tt, commit (ex_state (VInt 42)))
  /\ dispatch ex_rt ex_context (ex_op "LOAD_ATTR" "a") (commit (ex_state (VInt 42)))
     = (inr tt, with_refs (commit (ex_state (VInt 42))) [VInt 42; VStr "a"]).
Proof.
  split; [split; reflexivity |].
  destruct (none_is_never_a_reference ex_rt ex_context) as (_ & H1 & H2).
  split.
  - apply (H1 (ex_op "LOAD_GLOBAL" "n") (ex_state (VInt 42))).
    left. split; reflexivity.
  - apply (H2 (ex_op "LOAD_ATTR" "a") (commit (ex_state (VInt 42))));
      reflexivity.
Defined.

(* ===================================================================== *)
(** ** Whole streams: what grows, and by how much                         *)
(* ===================================================================== *)

(** One [dispatch] appends at most one entry to [refs], emits no
    warning and leaves [lineno] as the marker set it. *)
Lemma dispatch_growth rt context op st r st1 :
  dispatch rt context op st = (r, st1) ->
  (exists added, refs st1 = refs st ++ added /\ length added <= 1)
  /\ warned st1 = warned st
  /\ lineno st1 = lineno (advance_line op st).
Proof.
  rewrite dispatch_advance.
  destruct (advance_line_fields op st) as (_ & <- & _ & <-).
  generalize (advance_line op st). clear st.
  intros st. unfold dispatch; simpl. unfold_monad.
  repeat case_match; intros; simplify_eq; simpl;
    (split; [| split; reflexivity]);
    first [ exists []; split; [now rewrite app_nil_r | simpl; lia]
          | eexists [_]; split; [reflexivity | simpl; lia] ].
Qed.

Lemma after_step_growth rt code context op st :
  (exists added,
     refs (after_step rt code context st op) = refs st ++ added
     /\ length added <= 1)
  /\ (exists added,
        warned (after_step rt code context st op) = warned st ++ added
        /\ length added <= 1
        /\ Forall (names_code code) added)
  /\ lineno (after_step rt code context st op) = lineno (advance_line op st).
Proof.
  unfold after_step. rewrite step_unfold.
  destruct (dispatch rt context op st) as [[e | u] st1] eqn:E;
    apply dispatch_growth in E as (Hr & Hw & Hl); simpl;
    (split; [exact Hr |]); (split; [| exact Hl]); rewrite Hw.
  - eexists [_]. split; [reflexivity |]. split; [simpl; lia |].
    constructor; [split; reflexivity | constructor].
  - exists []. rewrite app_nil_r. split; [reflexivity |].
    split; [simpl; lia | constructor].
Qed.

Lemma after_steps_growth rt code context ops : forall st,
  (exists added,
     refs (after_steps rt code context ops st) = refs st ++ added
     /\ length added <= length ops)
  /\ (exists added,
        warned (after_steps rt code context ops st) = warned st ++ added
        /\ length added <= length ops
        /\ Forall (names_code code) added)
  /\ lineno (after_steps rt code context ops st) = last_line ops (lineno st).
Proof.
  unfold after_steps, last_line.
  induction ops as [| op rest IH]; intros st; simpl.
  - split; [| split; [| reflexivity]]; exists []; rewrite app_nil_r; auto.
  - destruct (IH (after_step rt code context st op))
      as ((a1 & E1 & L1) & (w1 & F1 & M1 & N1) & K1).
    destruct (after_step_growth rt code context op st)
      as ((a0 & E0 & L0) & (w0 & F0 & M0 & N0) & K0).
    split; [| split].
    + exists (a0 ++ a1). rewrite E1, E0, app_assoc. split; [reflexivity |].
      rewrite length_app. lia.
    + exists (w0 ++ w1). rewrite F1, F0, app_assoc. split; [reflexivity |].
      split; [rewrite length_app; lia | now apply Forall_app].
    + rewrite K1, K0. unfold advance_line.
      destruct (starts_line op); reflexivity.
Qed.

(** X1.  The output only grows, at its end, by at most one entry per
    instruction: what a stream returns extends what any of its prefixes
    returns, and is never longer than the stream. *)
Theorem refs_extend_by_at_most_one_each (rt : Runtime) (code : Code)
    (context : CodeContext) (pre post : list Instruction) (st : WalkState) :
  (exists added,
     refs (after_steps rt code context (pre ++ post) st)
       = refs (after_steps rt code context pre st) ++ added
     /\ length added <= length post)
  /\ (forall h, length (refs (final_state rt code context h))
                <= length (instructions code)).
Proof.
  split.
  - rewrite after_steps_app.
    apply (after_steps_growth rt code context post).
  - intros h. unfold final_state.
    destruct (after_steps_growth rt code context (instructions code) (entry h))
      as ((a & E & L) & _).
    rewrite E. simpl. exact L.
Qed.

(** X2.  A walk emits at most one warning per instruction, never
    removes one, and every warning it emits names the file and the
    callable of the code object walked. *)
Theorem warnings_at_most_one_each (rt : Runtime) (code : Code)
    (context : CodeContext) (h : Heap) :
  length (warned (final_state rt code context h)) <= length (instructions code)
  /\ Forall (names_code code) (warned (final_state rt code context h))
  /\ (forall pre post st,
        exists added,
          warned (after_steps rt code context (pre ++ post) st)
            = warned (after_steps rt code context pre st) ++ added
          /\ length added <= length post).
Proof.
  unfold final_state.
  destruct (after_steps_growth rt code context (instructions code) (entry h))
    as (_ & (w & E & L & N) & _).
  rewrite E. simpl. repeat split; auto.
  intros pre post st. rewrite after_steps_app.
  destruct (after_steps_growth rt code context post
              (after_steps rt code context pre st)) as (_ & (a & Ea & La & _) & _).
  eauto.
Qed.

(** X3.  [lineno] is the last line marker met so far, whether or not
    instructions raised on the way: an instruction without a marker
    keeps the previous line, and the line a warning reports is the one
    known when its instruction was dispatched. *)
Theorem lineno_is_last_marker (rt : Runtime) (code : Code)
    (context : CodeContext) (ops : list Instruction) (st : WalkState) :
  lineno (after_steps rt code context ops st) = last_line ops (lineno st)
  /\ (forall op e st1,
        dispatch rt context op (after_steps rt code context ops st) = (inl e, st1) ->
        exists w,
          warned (after_steps rt code context (ops ++ [op]) st)
            = warned (after_steps rt code context ops st) ++ [w]
          /\ w_error w = e
          /\ w_lineno w = last_line (ops ++ [op]) (lineno st)).
Proof.
  split.
  - apply after_steps_growth.
  - intros op e st1 H. rewrite after_steps_app.
    set (cur := after_steps rt code context ops st) in *.
    unfold after_steps at 1; simpl. unfold after_step.
    rewrite step_unfold, H. simpl.
    exists {| w_filename := co_filename code; w_lineno := lineno st1;
              w_name := co_name code; w_error := e |}.
    pose proof (dispatch_growth _ _ _ _ _ _ H) as (_ & Hw & Hl).
    split; [| split]; [| reflexivity |].
    + unfold warned_with; simpl. now rewrite Hw.
    + simpl. rewrite Hl.
      unfold last_line. rewrite fold_left_app. simpl.
      fold (last_line ops (lineno st)).
      destruct (after_steps_growth rt code context ops st) as (_ & _ & K).
      fold cur in K. rewrite <- K. unfold advance_line.
      destruct (starts_line op); reflexivity.
Qed.

Lemma lineno_is_last_marker_witness :
  dispatch ex_rt ex_context (ex_op "LOAD_ATTR" "missing")
    (after_steps ex_rt (ex_code []) ex_context
       [ {| opname := "LOAD_GLOBAL"; argval := "o"; starts_line := Some 3%Z |} ]
       (entry ex_heap))
  = (inl (AttributeError "missing"),
     after_steps ex_rt (ex_code []) ex_context
       [ {| opname := "LOAD_GLOBAL"; argval := "o"; starts_line := Some 3%Z |} ]
       (entry ex_heap))
  /\ exists w,
       warned (after_steps ex_rt (ex_code []) ex_context
                 ([ {| opname := "LOAD_GLOBAL"; argval := "o";
                       starts_line := Some 3%Z |} ]
                  ++ [ex_op "LOAD_ATTR" "missing"]) (entry ex_heap))
         = warned (after_steps ex_rt (ex_code []) ex_context
                     [ {| opname := "LOAD_GLOBAL"; argval := "o";
                          starts_line := Some 3%Z |} ] (entry ex_heap)) ++ [w]
       /\ w_error w = AttributeError "missing"
       /\ w_lineno w = Some 3%Z.
Proof.
  split; [reflexivity |].
  destruct (lineno_is_last_marker ex_rt (ex_code []) ex_context
              [ {| opname := "LOAD_GLOBAL"; argval := "o"; starts_line := Some 3%Z |} ]
              (entry ex_heap)) as [_ H].
  apply (H (ex_op "LOAD_ATTR" "missing") (AttributeError "missing") _ eq_refl).
Defined.

(* ===================================================================== *)
(** ** Whole streams: what is written, what is returned                   *)
(* ===================================================================== *)

Lemma push_fields v st :
  tos (push v st) = v
  /\ refs (push v st) = refs st ++ pending (tos st)
  /\ heap (push v st) = heap st
  /\ warned (push v st) = warned st
  /\ lineno (push v st) = lineno st.
Proof.
  unfold push, pending. destruct (is_None (tos st)); simpl;
    rewrite ?app_nil_r; auto.
Qed.

Lemma commit_fields st :
  tos (commit st) = VNone
  /\ refs (commit st) = refs st ++ pending (tos st)
  /\ heap (commit st) = heap st
  /\ warned (commit st) = warned st
  /\ lineno (commit st) = lineno st.
Proof.
  unfold commit, pending. destruct (tos st) eqn:E; simpl;
    rewrite ?app_nil_r; auto.
Qed.

Lemma str_in_incl s xs ys :
  str_in s xs = true -> incl xs ys -> str_in s ys = true.
Proof.
  intros H I. apply str_in_true in H. unfold str_in.
  apply existsb_exists. exists s. split; [now apply I | apply String.eqb_refl].
Qed.

(** Only STORE_FAST and DELETE_FAST write to the heap. *)
Lemma dispatch_heap_same rt context op st r st1 :
  ~ writes_locals op ->
  dispatch rt context op st = (r, st1) ->
  heap st1 = heap st.
Proof.
  intros Hw. rewrite dispatch_advance.
  destruct (advance_line_fields op st) as (_ & _ & <- & _).
  generalize (advance_line op st). clear st.
  intros st. unfold dispatch; simpl. unfold_monad.
  repeat case_match; intros; simplify_eq; simpl; try reflexivity;
    exfalso; apply Hw; unfold writes_locals;
    match goal with
    | E : String.eqb (opname op) _ = true |- _ =>
        apply String.eqb_eq in E; rewrite E; auto
    end.
Qed.

Lemma after_steps_heap_same rt code context ops : forall st,
  Forall (fun op => ~ writes_locals op) ops ->
  heap (after_steps rt code context ops st) = heap st.
Proof.
  unfold after_steps.
  induction ops as [| op rest IH]; intros st F; simpl; [reflexivity |].
  inversion F; subst. rewrite IH by assumption.
  unfold after_step. rewrite step_unfold.
  destruct (dispatch rt context op st) as [[e | u] st1] eqn:E; simpl;
    now apply (dispatch_heap_same _ _ _ _ _ _ ltac:(eassumption)) in E.
Qed.

(** X4.  Only STORE_FAST and DELETE_FAST instructions write: a walk of
    a stream that contains neither leaves the whole heap, the
    dictionary [varnames] included, exactly as it found it. *)
Theorem no_local_write_no_heap_change (rt : Runtime) (code : Code)
    (context : CodeContext) (h : Heap) :
  Forall (fun op => ~ writes_locals op) (instructions code) ->
  heap (final_state rt code context h) = h.
Proof.
  intros F. unfold final_state. now rewrite after_steps_heap_same.
Qed.

Lemma no_local_write_no_heap_change_witness :
  Forall (fun op => ~ writes_locals op) (instructions (ex_code ex_ops_lines))
  /\ heap (final_state ex_rt (ex_code ex_ops_lines) ex_context ex_heap) = ex_heap.
Proof.
  assert (Forall (fun op => ~ writes_locals op)
            (instructions (ex_code ex_ops_lines))) as F.
  { repeat constructor; intros [H | H]; discriminate H. }
  split; [exact F |].
  exact (no_local_write_no_heap_change ex_rt (ex_code ex_ops_lines)
           ex_context ex_heap F).
Defined.

(** An instruction that is no reference opcode is a local-variable
    opcode or has no named opcode at all. *)
Lemma local_or_unnamed op :
  str_in (opname op) reference_opcodes = false ->
  opname op = "DELETE_FAST" \/ opname op = "STORE_FAST"
  \/ opname op = "LOAD_FAST" \/ str_in (opname op) named_opcodes = false.
Proof.
  intros H.
  destruct (opcode_cases op) as [C | [C | [C | [C | [C | [C | [C | C]]]]]]];
    auto;
    exfalso; apply Bool.diff_true_false; rewrite <- H; symmetry.
  - apply (str_in_incl _ _ _ C). intros x [<- | [<- | []]]; simpl; tauto.
  - apply (str_in_incl _ _ _ C). intros x [<- | [<- | []]]; simpl; tauto.
  - rewrite C. reflexivity.
  - apply (str_in_incl _ _ _ C). intros x [<- | [<- | [<- | []]]]; simpl; tauto.
Qed.

(** With the register empty and no local bound, an instruction that
    is no reference opcode changes nothing but the line. *)
Lemma dispatch_locals_only rt context op st :
  str_in (opname op) reference_opcodes = false ->
  tos st = VNone ->
  deref (heap st) (varnames context) = ∅ ->
  dispatch rt context op st = (inr tt, advance_line op st).
Proof.
  intros H Ht Hv.
  destruct (advance_line_fields op st) as (Et & _ & Eh & _).
  assert (commit (advance_line op st) = advance_line op st) as Ec.
  { unfold commit. now rewrite Et, Ht. }
  destruct (local_or_unnamed op H) as [C | [C | [C | C]]].
  - rewrite dispatch_delete_fast by exact C. cbv zeta.
    rewrite Et, Ht. simpl. now rewrite Ec.
  - rewrite dispatch_store_fast by exact C. cbv zeta.
    rewrite Et, Ht. simpl. now rewrite Ec.
  - rewrite dispatch_load_fast by exact C. cbv zeta.
    rewrite Eh, Hv, lookup_empty. now rewrite Ec.
  - rewrite dispatch_default by exact C. now rewrite Ec.
Qed.

Lemma after_steps_locals_only rt code context ops : forall st,
  Forall (fun op => str_in (opname op) reference_opcodes = false) ops ->
  tos st = VNone ->
  deref (heap st) (varnames context) = ∅ ->
  tos (after_steps rt code context ops st) = VNone
  /\ refs (after_steps rt code context ops st) = refs st
  /\ heap (after_steps rt code context ops st) = heap st
  /\ warned (after_steps rt code context ops st) = warned st.
Proof.
  unfold after_steps.
  induction ops as [| op rest IH]; intros st F Ht Hv; simpl; [auto |].
  inversion F; subst.
  rewrite (after_step_ok rt code context op st (advance_line op st))
    by now apply dispatch_locals_only.
  destruct (advance_line_fields op st) as (Et & Er & Eh & Ew).
  rewrite <- Er, <- Eh, <- Ew.
  apply IH; [assumption | congruence | now rewrite Eh].
Qed.

(** X5.  A function that refers to no global, captured, imported or
    attribute name has no references: when no instruction of the stream
    is a reference opcode and no local is bound at entry, the walk
    returns the empty list, emits no warning and writes nothing,
    whatever locals the stream stores, deletes or loads. *)
Theorem locals_only_stream_has_no_references (rt : Runtime) (code : Code)
    (context : CodeContext) (h : Heap) :
  Forall (fun op => str_in (opname op) reference_opcodes = false)
         (instructions code) ->
  deref h (varnames context) = ∅ ->
  fst (get_referenced_objects rt code context h) = inr []
  /\ warned (final_state rt code context h) = []
  /\ heap (final_state rt code context h) = h.
Proof.
  intros F Hv. rewrite get_referenced_objects_final. unfold final_state.
  destruct (after_steps_locals_only rt code context (instructions code)
              (entry h) F eq_refl Hv) as (_ & Hr & Hh & Hw).
  simpl in *. now rewrite Hr, Hh, Hw.
Qed.

Lemma locals_only_stream_has_no_references_witness :
  (Forall (fun op => str_in (opname op) reference_opcodes = false)
          (instructions (ex_code ex_ops_locals_only))
   /\ deref ex_heap (varnames ex_context) = ∅)
  /\ fst (get_referenced_objects ex_rt (ex_code ex_ops_locals_only)
            ex_context ex_heap) = inr [].
Proof.
  assert (Forall (fun op => str_in (opname op) reference_opcodes = false)
            (instructions (ex_code ex_ops_locals_only))) as F
    by (repeat constructor).
  split; [split; [exact F | reflexivity] |].
  exact (proj1 (locals_only_stream_has_no_references ex_rt
                  (ex_code ex_ops_locals_only) ex_context ex_heap F eq_refl)).
Defined.

(* ===================================================================== *)
(** ** Runs of loads, and dotted paths                                    *)
(* ===================================================================== *)

Lemma after_steps_load_globals rt code context loads : forall st,
  Forall (fun op => str_in (opname op) ["LOAD_GLOBAL"; "LOAD_NAME"] = true) loads ->
  refs (after_steps rt code context loads st)
    ++ pending (tos (after_steps rt code context loads st))
  = (refs st ++ pending (tos st))
    ++ flat_map (fun op => pending (resolve_global
                                      (deref (heap st) (globals context))
                                      (argval op))) loads
  /\ heap (after_steps rt code context loads st) = heap st
  /\ warned (after_steps rt code context loads st) = warned st.
Proof.
  unfold after_steps.
  induction loads as [| op rest IH]; intros st F; simpl.
  - now rewrite app_nil_r.
  - inversion F as [| ? ? Hop Hrest]; subst.
    destruct (advance_line_fields op st) as (Et & Er & Eh & Ew).
    rewrite (after_step_ok rt code context op st _
               (dispatch_load_global rt context op st Hop)).
    cbv zeta. rewrite Eh.
    set (v := default (VStr (argval op))
                (deref (heap st) (globals context) !! argval op)).
    destruct (push_fields v (advance_line op st)) as (Pt & Pr & Ph & Pw & _).
    destruct (IH (push v (advance_line op st)) Hrest) as (I1 & I2 & I3).
    rewrite I1, I2, I3, Pt, Pr, Ph, Pw, Et, Er, Eh, Ew.
    unfold resolve_global. fold v. now rewrite <- !app_assoc.
Qed.

(** X6.  A run of global loads yields the loaded values in the order
    of the instructions: a bound name gives its value, an unbound name
    its own name as a string, a name bound to [None] gives nothing, and
    a value loaded twice is listed twice. *)
Theorem global_loads_listed_in_order (rt : Runtime) (code : Code)
    (context : CodeContext) (h : Heap)
    (loads : list Instruction) (last : Instruction) :
  Forall (fun op => str_in (opname op) ["LOAD_GLOBAL"; "LOAD_NAME"] = true) loads ->
  str_in (opname last) named_opcodes = false ->
  instructions code = loads ++ [last] ->
  fst (get_referenced_objects rt code context h)
    = inr (flat_map (fun op => pending (resolve_global
                                          (deref h (globals context))
                                          (argval op))) loads)
  /\ warned (final_state rt code context h) = [].
Proof.
  intros F Hl Hc. rewrite get_referenced_objects_final. unfold final_state.
  rewrite Hc, after_steps_app.
  destruct (after_steps_load_globals rt code context loads (entry h) F)
    as (I1 & I2 & I3).
  set (mid := after_steps rt code context loads (entry h)) in *.
  unfold after_steps at 1 2; simpl.
  rewrite (after_step_ok rt code context last mid _
             (dispatch_default rt context last mid Hl)).
  destruct (commit_fields (advance_line last mid)) as (_ & Cr & _ & Cw & _).
  destruct (advance_line_fields last mid) as (Et & Er & _ & Ew).
  rewrite Cr, Cw, Et, Er, Ew, I1, I3. simpl. split; reflexivity.
Qed.

Lemma global_loads_listed_in_order_witness :
  (Forall (fun op => str_in (opname op) ["LOAD_GLOBAL"; "LOAD_NAME"] = true)
          [ex_op "LOAD_GLOBAL" "g"; ex_op "LOAD_NAME" "n";
           ex_op "LOAD_GLOBAL" "undefined"; ex_op "LOAD_GLOBAL" "g"]
   /\ str_in (opname (ex_op "RETURN_VALUE" "")) named_opcodes = false)
  /\ fst (get_referenced_objects ex_rt
            (ex_code ([ex_op "LOAD_GLOBAL" "g"; ex_op "LOAD_NAME" "n";
                       ex_op "LOAD_GLOBAL" "undefined"; ex_op "LOAD_GLOBAL" "g"]
                      ++ [ex_op "RETURN_VALUE" ""])) ex_context ex_heap)
     = inr [VInt 42; VStr "undefined"; VInt 42].
Proof.
  assert (Forall (fun op => str_in (opname op) ["LOAD_GLOBAL"; "LOAD_NAME"] = true)
            [ex_op "LOAD_GLOBAL" "g"; ex_op "LOAD_NAME" "n";
             ex_op "LOAD_GLOBAL" "undefined"; ex_op "LOAD_GLOBAL" "g"]) as F
    by (repeat constructor).
  split; [split; [exact F | reflexivity] |].
  exact (proj1 (global_loads_listed_in_order ex_rt
                  (ex_code ([ex_op "LOAD_GLOBAL" "g"; ex_op "LOAD_NAME" "n";
                             ex_op "LOAD_GLOBAL" "undefined";
                             ex_op "LOAD_GLOBAL" "g"]
                            ++ [ex_op "RETURN_VALUE" ""]))
                  ex_context ex_heap
                  _ (ex_op "RETURN_VALUE" "") F eq_refl eq_refl)).
Defined.

Lemma after_steps_attrs rt code context attrs : forall st s,
  Forall (fun op =>
            str_in (opname op) ["LOAD_METHOD"; "LOAD_ATTR"; "IMPORT_FROM"] = true)
         attrs ->
  tos st = VStr s ->
  tos (after_steps rt code context attrs st) = VStr (dotted s attrs)
  /\ refs (after_steps rt code context attrs st) = refs st
  /\ heap (after_steps rt code context attrs st) = heap st
  /\ warned (after_steps rt code context attrs st) = warned st.
Proof.
  unfold after_steps, dotted.
  induction attrs as [| op rest IH]; intros st s F Ht; simpl; [auto |].
  inversion F as [| ? ? Hop Hrest]; subst.
  destruct (advance_line_fields op st) as (Et & Er & Eh & Ew).
  rewrite (after_step_ok rt code context op st
             (with_tos (advance_line op st) (VStr (s ++ "." ++ argval op)))).
  2:{ rewrite dispatch_load_attr by exact Hop. cbv zeta. now rewrite Et, Ht. }
  destruct (IH (with_tos (advance_line op st) (VStr (s ++ "." ++ argval op)))
              (s ++ "." ++ argval op)%string Hrest eq_refl)
    as (I1 & I2 & I3 & I4).
  rewrite I1, I2, I3, I4. simpl. auto.
Qed.

(** X7.  A name that resolves to a string (an unbound global, which
    stands for itself, or a global bound to a string) followed by any
    number of attribute loads yields one entry, the dotted path of the
    string and the attribute names in order; no attribute lookup takes
    place and no warning is emitted. *)
Theorem dotted_path_of_unresolved_name (rt : Runtime) (code : Code)
    (context : CodeContext) (h : Heap)
    (load : Instruction) (attrs : list Instruction) (last : Instruction)
    (base : string) :
  str_in (opname load) ["LOAD_GLOBAL"; "LOAD_NAME"] = true ->
  resolve_global (deref h (globals context)) (argval load) = VStr base ->
  Forall (fun op =>
            str_in (opname op) ["LOAD_METHOD"; "LOAD_ATTR"; "IMPORT_FROM"] = true)
         attrs ->
  str_in (opname last) named_opcodes = false ->
  instructions code = load :: attrs ++ [last] ->
  fst (get_referenced_objects rt code context h) = inr [VStr (dotted base attrs)]
  /\ warned (final_state rt code context h) = [].
Proof.
  intros Hload Hbase F Hl Hc.
  rewrite get_referenced_objects_final. unfold final_state. rewrite Hc.
  change (load :: attrs ++ [last]) with ([load] ++ attrs ++ [last]).
  rewrite !after_steps_app.
  destruct (after_steps_load_globals rt code context [load] (entry h))
    as (L1 & L2 & L3); [repeat constructor; exact Hload |].
  set (st1 := after_steps rt code context [load] (entry h)) in *.
  simpl in L1, L2, L3. rewrite Hbase, app_nil_r in L1.
  assert (tos st1 = VStr base /\ refs st1 = []) as [T1 R1].
  { unfold after_steps in st1. simpl in st1. unfold st1.
    rewrite (after_step_ok rt code context load (entry h) _
               (dispatch_load_global rt context load (entry h) Hload)).
    cbv zeta.
    destruct (advance_line_fields load (entry h)) as (Et & Er & Eh & _).
    destruct (push_fields
                (default (VStr (argval load))
                   (deref (heap (advance_line load (entry h))) (globals context)
                      !! argval load))
                (advance_line load (entry h))) as (Pt & Pr & _).
    rewrite Pt, Pr, Et, Er, Eh. simpl. split; [exact Hbase | reflexivity]. }
  destruct (after_steps_attrs rt code context attrs st1 base F T1)
    as (A1 & A2 & A3 & A4).
  set (st2 := after_steps rt code context attrs st1) in *.
  unfold after_steps at 1 2; simpl.
  rewrite (after_step_ok rt code context last st2 _
             (dispatch_default rt context last st2 Hl)).
  destruct (commit_fields (advance_line last st2)) as (_ & Cr & _ & Cw & _).
  destruct (advance_line_fields last st2) as (Et & Er & _ & Ew).
  rewrite Cr, Cw, Et, Er, Ew, A1, A2, A4, R1, L3. simpl. split; reflexivity.
Qed.

Lemma dotted_path_of_unresolved_name_witness :
  (str_in (opname (ex_op "LOAD_GLOBAL" "np")) ["LOAD_GLOBAL"; "LOAD_NAME"] = true
   /\ resolve_global (deref ex_heap (globals ex_context)) "np" = VStr "np"
   /\ Forall (fun op =>
                str_in (opname op) ["LOAD_METHOD"; "LOAD_ATTR"; "IMPORT_FROM"]
                  = true)
             [ex_op "LOAD_ATTR" "linalg"; ex_op "LOAD_METHOD" "norm"]
   /\ str_in (opname (ex_op "CALL_METHOD" "1")) named_opcodes = false)
  /\ fst (get_referenced_objects ex_rt
            (ex_code (ex_op "LOAD_GLOBAL" "np"
                      :: [ex_op "LOAD_ATTR" "linalg"; ex_op "LOAD_METHOD" "norm"]
                      ++ [ex_op "CALL_METHOD" "1"])) ex_context ex_heap)
     = inr [VStr "np.linalg.norm"].
Proof.
  assert (Forall (fun op =>
                    str_in (opname op) ["LOAD_METHOD"; "LOAD_ATTR"; "IMPORT_FROM"]
                      = true)
            [ex_op "LOAD_ATTR" "linalg"; ex_op "LOAD_METHOD" "norm"]) as F
    by (repeat constructor).
  split; [repeat split; try reflexivity; exact F |].
  exact (proj1 (dotted_path_of_unresolved_name ex_rt
                  (ex_code (ex_op "LOAD_GLOBAL" "np"
                            :: [ex_op "LOAD_ATTR" "linalg";
                                ex_op "LOAD_METHOD" "norm"]
                            ++ [ex_op "CALL_METHOD" "1"]))
                  ex_context ex_heap
                  (ex_op "LOAD_GLOBAL" "np") _ (ex_op "CALL_METHOD" "1") "np"
                  eq_refl eq_refl F eq_refl eq_refl)).
Defined.

(* ===================================================================== *)
(** ** Locals: store, load, delete                                        *)
(* ===================================================================== *)

(** X8.  A local stored by STORE_FAST is read back by a later
    LOAD_FAST of the same name, as long as no instruction in between
    writes locals: the load puts the stored value back in the register,
    after committing whatever the instructions in between left pending.
    The store itself commits nothing. *)
Theorem stored_local_is_read_back (rt : Runtime) (code : Code)
    (context : CodeContext) (store : Instruction) (mid : list Instruction)
    (load : Instruction) (st : WalkState) :
  opname store = "STORE_FAST" ->
  opname load = "LOAD_FAST" ->
  argval load = argval store ->
  truth rt (tos st) = inr true ->
  Forall (fun op => ~ writes_locals op) mid ->
  tos (after_steps rt code context ([store] ++ mid ++ [load]) st) = tos st
  /\ refs (after_steps rt code context [store] st) = refs st
  /\ refs (after_steps rt code context ([store] ++ mid ++ [load]) st)
     = refs (after_steps rt code context ([store] ++ mid) st)
       ++ pending (tos (after_steps rt code context ([store] ++ mid) st)).
Proof.
  intros Hs Hl Ha Ht F.
  rewrite app_assoc, !after_steps_app.
  set (st1 := after_steps rt code context [store] st).
  destruct (advance_line_fields store st) as (Et & Er & Eh & Ew).
  assert (refs st1 = refs st
          /\ deref (heap st1) (varnames context) !! argval store = Some (tos st))
    as [R1 V1].
  { unfold st1, after_steps; simpl.
    erewrite after_step_ok.
    2:{ rewrite dispatch_store_fast by exact Hs. cbv zeta.
        rewrite Et, Ht. reflexivity. }
    simpl. rewrite deref_insert_eq, lookup_insert_eq. auto. }
  set (st2 := after_steps rt code context mid st1).
  assert (heap st2 = heap st1) as H2
    by (unfold st2; now apply after_steps_heap_same).
  change (after_steps rt code context [load] st2)
    with (after_step rt code context st2 load).
  destruct (advance_line_fields load st2) as (Et2 & Er2 & Eh2 & _).
  rewrite (after_step_ok rt code context load st2 (push (tos st) (advance_line load st2))).
  2:{ rewrite dispatch_load_fast by exact Hl. cbv zeta.
      now rewrite Eh2, H2, Ha, V1. }
  destruct (push_fields (tos st) (advance_line load st2)) as (Pt & Pr & _).
  rewrite Pt, Pr, Et2, Er2. auto.
Qed.

Lemma stored_local_is_read_back_witness :
  (opname (ex_op "STORE_FAST" "y") = "STORE_FAST"
   /\ opname (ex_op "LOAD_FAST" "y") = "LOAD_FAST"
   /\ truth ex_rt (tos (ex_state (VObj 1))) = inr true
   /\ Forall (fun op => ~ writes_locals op) [ex_op "LOAD_GLOBAL" "g"])
  /\ tos (after_steps ex_rt (ex_code []) ex_context
            ([ex_op "STORE_FAST" "y"] ++ [ex_op "LOAD_GLOBAL" "g"]
             ++ [ex_op "LOAD_FAST" "y"]) (ex_state (VObj 1)))
     = VObj 1.
Proof.
  assert (Forall (fun op => ~ writes_locals op) [ex_op "LOAD_GLOBAL" "g"]) as F.
  { repeat constructor; intros [H | H]; discriminate H. }
  split; [repeat split; try reflexivity; exact F |].
  exact (proj1 (stored_local_is_read_back ex_rt (ex_code []) ex_context
                  (ex_op "STORE_FAST" "y") [ex_op "LOAD_GLOBAL" "g"]
                  (ex_op "LOAD_FAST" "y") (ex_state (VObj 1))
                  eq_refl eq_refl eq_refl eq_refl F)).
Defined.

(** X9.  DELETE_FAST with a truthy value pending: when the name is
    bound, the binding is removed and the pending value is discarded
    without being committed; when the name is not bound, the deletion
    raises a key error, which becomes a warning, and the register, the
    output and the bindings stay as they were. *)
Theorem delete_fast_discards_pending (rt : Runtime) (code : Code)
    (context : CodeContext) (op : Instruction) (st : WalkState) :
  opname op = "DELETE_FAST" ->
  truth rt (tos st) = inr true ->
  match deref (heap st) (varnames context) !! argval op with
  | Some _ =>
      deref (heap (after_step rt code context st op)) (varnames context)
        = delete (argval op) (deref (heap st) (varnames context))
      /\ tos (after_step rt code context st op) = VNone
      /\ refs (after_step rt code context st op) = refs st
      /\ warned (after_step rt code context st op) = warned st
  | None =>
      heap (after_step rt code context st op) = heap st
      /\ tos (after_step rt code context st op) = tos st
      /\ refs (after_step rt code context st op) = refs st
      /\ map w_error (warned (after_step rt code context st op))
         = map w_error (warned st) ++ [KeyError (argval op)]
  end.
Proof.
  intros Ho Ht.
  destruct (advance_line_fields op st) as (Et & Er & Eh & Ew).
  unfold after_step. rewrite step_unfold.
  rewrite dispatch_delete_fast by exact Ho. cbv zeta.
  rewrite Et, Ht, Eh.
  destruct (deref (heap st) (varnames context) !! argval op); simpl.
  - rewrite deref_insert_eq. auto.
  - rewrite Ew, map_app. auto.
Qed.

Lemma delete_fast_discards_pending_witness :
  (opname (ex_op "DELETE_FAST" "y") = "DELETE_FAST"
   /\ truth ex_rt (tos (ex_state (VInt 42))) = inr true)
  /\ heap (after_step ex_rt (ex_code []) ex_context (ex_state (VInt 42))
             (ex_op "DELETE_FAST" "y")) = heap (ex_state (VInt 42))
  /\ tos (after_step ex_rt (ex_code []) ex_context (ex_state (VInt 42))
            (ex_op "DELETE_FAST" "y")) = VInt 42.
Proof.
  split; [split; reflexivity |].
  pose proof (delete_fast_discards_pending ex_rt (ex_code []) ex_context
                (ex_op "DELETE_FAST" "y") (ex_state (VInt 42))
                eq_refl eq_refl) as H.
  simpl in H. destruct H as (H1 & H2 & _). split; [exact H1 | exact H2].
Defined.

(* ===================================================================== *)
(** ** Imports                                                            *)
(* ===================================================================== *)

(** X10.  [import m] followed by any unnamed instruction: a module
    that is found is the one reference; a module whose import raises
    ImportError is referred to by its name, without a warning; an
    import that raises anything else gives no reference and one
    warning carrying that exception. *)
Theorem import_falls_back_to_name (rt : Runtime) (code : Code)
    (context : CodeContext) (h : Heap) (op last : Instruction) :
  opname op = "IMPORT_NAME" ->
  str_in (opname last) named_opcodes = false ->
  instructions code = [op; last] ->
  fst (get_referenced_objects rt code context h)
    = inr (match import_module rt (argval op) with
           | inr m => pending m
           | inl e => if is_ImportError e then [VStr (argval op)] else []
           end)
  /\ map w_error (warned (final_state rt code context h))
     = match import_module rt (argval op) with
       | inr _ => []
       | inl e => if is_ImportError e then [] else [e]
       end.
Proof.
  intros Ho Hl Hc. rewrite get_referenced_objects_final. unfold final_state.
  rewrite Hc. unfold after_steps; simpl.
  set (st1 := after_step rt code context (entry h) op).
  rewrite (after_step_ok rt code context last st1 _
             (dispatch_default rt context last st1 Hl)).
  destruct (commit_fields (advance_line last st1)) as (_ & Cr & _ & Cw & _).
  destruct (advance_line_fields last st1) as (Et & Er & _ & Ew).
  rewrite Cr, Cw, Et, Er, Ew.
  destruct (advance_line_fields op (entry h)) as (Et0 & Er0 & _ & Ew0).
  unfold st1, after_step. rewrite step_unfold.
  rewrite dispatch_import_name by exact Ho. cbv zeta.
  destruct (import_module rt (argval op)) as [e | m];
    [destruct (is_ImportError e) |]; cbn [fst snd].
  - destruct (push_fields (VStr (argval op)) (advance_line op (entry h)))
      as (Pt & Pr & _ & Pw & _).
    rewrite Pt, Pr, Pw, Et0, Er0, Ew0. split; reflexivity.
  - unfold warned_with, with_warned; simpl.
    rewrite Et0, Er0, Ew0. simpl. split; reflexivity.
  - destruct (push_fields m (advance_line op (entry h)))
      as (Pt & Pr & _ & Pw & _).
    rewrite Pt, Pr, Pw, Et0, Er0, Ew0. split; reflexivity.
Qed.

Lemma import_falls_back_to_name_witness :
  (opname (ex_op "IMPORT_NAME" "nowhere") = "IMPORT_NAME"
   /\ str_in (opname (ex_op "RETURN_VALUE" "")) named_opcodes = false)
  /\ fst (get_referenced_objects ex_rt
            (ex_code [ex_op "IMPORT_NAME" "nowhere"; ex_op "RETURN_VALUE" ""])
            ex_context ex_heap)
     = inr [VStr "nowhere"].
Proof.
  split; [split; reflexivity |].
  exact (proj1 (import_falls_back_to_name ex_rt
                  (ex_code [ex_op "IMPORT_NAME" "nowhere"; ex_op "RETURN_VALUE" ""])
                  ex_context ex_heap
                  (ex_op "IMPORT_NAME" "nowhere") (ex_op "RETURN_VALUE" "")
                  eq_refl eq_refl eq_refl)).
Defined.

(* ===================================================================== *)
(** ** The context builder, further                                       *)
(* ===================================================================== *)

Lemma update_from_closure_filled (names : list string) :
  forall (closure : list cell) (d : dict),
    length names = length closure ->
    (Forall (fun c => c <> None) closure ->
     exists d', update_from_closure d names closure = inr d')
    /\ (In None closure ->
        update_from_closure d names closure = inl (ValueError "Cell is empty")).
Proof.
  induction names as [| n names IH]; intros closure d L.
  - destruct closure; [| discriminate]. split; [eauto | intros []].
  - destruct closure as [| c closure]; [discriminate |]. simpl in L.
    destruct (IH closure (match c with Some v => <[n := v]> d | None => d end)
                ltac:(lia)) as [I1 I2].
    split.
    + intros F. inversion F; subst. destruct c as [v |]; [| congruence].
      simpl. now apply I1.
    + intros [-> | Hin]; [reflexivity |].
      destruct c as [v |]; simpl; [now apply I2 | reflexivity].
Qed.

(** X11.  [get_code_context] succeeds exactly when the function has no
    free variables, or its closure is a tuple as long as the list of
    free-variable names and every cell of it is filled.  With names and
    cells equal in number, one empty cell makes the build fail with a
    value error, which [get_references] passes on without walking. *)
Theorem context_built_iff_cells_filled (rt : Runtime) (func : Func) (h : Heap) :
  ((exists context h1, get_code_context func h = inr (context, h1))
   <-> (co_freevars (f_code func) = []
        \/ exists closure,
             f_closure func = Some closure
             /\ length (co_freevars (f_code func)) = length closure
             /\ Forall (fun c => c <> None) closure))
  /\ (forall closure,
        co_freevars (f_code func) <> [] ->
        f_closure func = Some closure ->
        length (co_freevars (f_code func)) = length closure ->
        In None closure ->
        get_code_context func h = inl (ValueError "Cell is empty")
        /\ get_references rt func h = inl (ValueError "Cell is empty")).
Proof.
  split; [split |].
  - intros (context & h1 & H).
    apply get_code_context_success in H as (d & Hd & _).
    unfold build_cells in Hd.
    destruct (co_freevars (f_code func)) as [| x xs] eqn:F; [now left |].
    right. destruct (f_closure func) as [closure |]; [| discriminate].
    destruct (length (x :: xs) =? length closure)%nat eqn:L; [| discriminate].
    apply Nat.eqb_eq in L. exists closure. repeat split; auto.
    apply List.Forall_forall. intros c Hc ->.
    destruct (update_from_closure_filled (x :: xs) closure
                (cellvar_placeholders (co_cellvars (f_code func))) L) as [_ I].
    rewrite (I Hc) in Hd. discriminate.
  - intros H.
    assert (exists d, build_cells func = inr d) as [d Hd].
    { unfold build_cells. destruct H as [-> | (closure & -> & L & F)]; [eauto |].
      destruct (co_freevars (f_code func)) as [| x xs] eqn:E; [eauto |].
      apply Nat.eqb_eq in L as L'. rewrite L'.
      now apply update_from_closure_filled. }
    unfold get_code_context. rewrite Hd. eauto.
  - intros closure Hne Hcl L Hin.
    assert (get_code_context func h = inl (ValueError "Cell is empty")) as E.
    { apply get_code_context_failure. unfold build_cells.
      destruct (co_freevars (f_code func)) as [| x xs] eqn:F; [congruence |].
      rewrite Hcl. apply Nat.eqb_eq in L as L'. rewrite L'.
      now apply update_from_closure_filled. }
    split; [exact E |]. unfold get_references. now rewrite E.
Qed.

Lemma context_built_iff_cells_filled_witness :
  (co_freevars (f_code ex_func_empty_cell) <> []
   /\ f_closure ex_func_empty_cell = Some [Some (VInt 1); None]
   /\ length (co_freevars (f_code ex_func_empty_cell))
      = length [Some (VInt 1); (None : cell)]
   /\ In None [Some (VInt 1); (None : cell)])
  /\ get_references ex_rt ex_func_empty_cell ex_heap
     = inl (ValueError "Cell is empty").
Proof.
  split; [repeat split; [discriminate | now right; left] |].
  destruct (context_built_iff_cells_filled ex_rt ex_func_empty_cell ex_heap)
    as [_ H].
  apply (H [Some (VInt 1); None]);
    [discriminate | reflexivity | reflexivity | now right; left].
Defined.

Lemma foldl_placeholders_lookup (names : list string) : forall (d : dict) n,
  (In n names ->
   foldl (fun d var => <[var := VStr var]> d) d names !! n = Some (VStr n))
  /\ (~ In n names ->
      foldl (fun d var => <[var := VStr var]> d) d names !! n = d !! n).
Proof.
  induction names as [| x xs IH]; intros d n; simpl.
  - tauto.
  - destruct (IH (<[x := VStr x]> d) n) as [I1 I2].
    destruct (in_dec string_dec n xs) as [Hin | Hnin].
    + split; [intros _; now apply I1 | tauto].
    + split.
      * intros [-> | Hin]; [| contradiction].
        rewrite I2 by exact Hnin. apply lookup_insert_eq.
      * intros Hno. rewrite I2 by exact Hnin.
        apply lookup_insert_ne. tauto.
Qed.

Lemma update_from_closure_keys (names : list string) :
  forall (closure : list cell) (d d' : dict),
    update_from_closure d names closure = inr d' ->
    length names = length closure ->
    forall n, is_Some (d' !! n) <-> In n names \/ is_Some (d !! n).
Proof.
  induction names as [| m names IH]; intros closure d d' H L n.
  - destruct closure; [| discriminate]. simpl in H. inversion H; subst.
    simpl. tauto.
  - destruct closure as [| [v |] closure]; simpl in H, L; try discriminate.
    rewrite (IH closure _ d' H ltac:(lia) n). simpl.
    destruct (decide (m = n)) as [-> | Hne].
    + rewrite lookup_insert_eq. split; [auto | intros _; right; eauto].
    + rewrite lookup_insert_ne by exact Hne. tauto.
Qed.

(** X12.  The keys of the built [cells] are exactly the declared
    captured names, [co_cellvars] and [co_freevars]; a name the
    function only hands to its own closures is bound to itself as a
    string.  So in a walk, LOAD_DEREF or LOAD_CLOSURE of a declared
    name never raises. *)
Theorem cells_keys_are_declared_names (rt : Runtime) (func : Func) (h : Heap)
    (context : CodeContext) (h1 : Heap) :
  get_code_context func h = inr (context, h1) ->
  (forall n, is_Some (deref h1 (cells context) !! n)
             <-> In n (co_cellvars (f_code func) ++ co_freevars (f_code func)))
  /\ (forall n, In n (co_cellvars (f_code func)) ->
                ~ In n (co_freevars (f_code func)) ->
                deref h1 (cells context) !! n = Some (VStr n))
  /\ (forall op st,
        str_in (opname op) ["LOAD_DEREF"; "LOAD_CLOSURE"] = true ->
        In (argval op) (co_cellvars (f_code func) ++ co_freevars (f_code func)) ->
        deref (heap st) (cells context) = deref h1 (cells context) ->
        exists v, dispatch rt context op st = (inr tt, push v (advance_line op st))).
Proof.
  intros H.
  apply get_code_context_contents in H as (_ & Hd & _).
  remember (deref h1 (cells context)) as d eqn:Ed. clear Ed.
  assert (forall n, is_Some (cellvar_placeholders (co_cellvars (f_code func)) !! n)
                    <-> In n (co_cellvars (f_code func))) as P.
  { intros n. unfold cellvar_placeholders.
    destruct (foldl_placeholders_lookup (co_cellvars (f_code func)) ∅ n)
      as [I1 I2].
    destruct (in_dec string_dec n (co_cellvars (f_code func))) as [Hin | Hnin].
    - rewrite I1 by exact Hin. split; eauto.
    - rewrite I2, lookup_empty by exact Hnin.
      split; [intros [? ?]; discriminate | tauto]. }
  assert (forall n, is_Some (d !! n)
            <-> In n (co_cellvars (f_code func) ++ co_freevars (f_code func))) as K.
  { intros n. rewrite in_app_iff. unfold build_cells in Hd.
    destruct (co_freevars (f_code func)) as [| x xs] eqn:F.
    - injection Hd as E. subst d. rewrite P. simpl. tauto.
    - destruct (f_closure func) as [closure |]; [| discriminate].
      destruct (length (x :: xs) =? length closure)%nat eqn:L; [| discriminate].
      apply Nat.eqb_eq in L.
      rewrite (update_from_closure_keys _ _ _ _ Hd L n), P. tauto. }
  split; [exact K | split].
  - intros n Hc Hf. unfold build_cells in Hd.
    assert (cellvar_placeholders (co_cellvars (f_code func)) !! n = Some (VStr n))
      as Pn.
    { unfold cellvar_placeholders.
      now apply foldl_placeholders_lookup. }
    destruct (co_freevars (f_code func)) as [| x xs] eqn:F.
    + injection Hd as E. now subst d.
    + destruct (f_closure func) as [closure |]; [| discriminate].
      destruct (length (x :: xs) =? length closure)%nat; [| discriminate].
      now rewrite (update_from_closure_other _ _ _ _ n Hd Hf).
  - intros op st Hop Hin Hst.
    rewrite dispatch_load_deref by exact Hop. cbv zeta.
    destruct (advance_line_fields op st) as (_ & _ & Eh & _).
    rewrite Eh, Hst. apply K in Hin as [v Hv]. rewrite Hv. eauto.
Qed.

Lemma cells_keys_are_declared_names_witness :
  get_code_context ex_func_filled_cell ex_heap
    = inr ({| globals := 0; cells := 3; varnames := 4 |},
           <[4 := ∅]> (<[3 := <["later" := VObj 1]> (<["a" := VInt 1]>
                                 (<["inner" := VStr "inner"]> ∅))]> ex_heap))
  /\ deref (<[4 := ∅]> (<[3 := <["later" := VObj 1]> (<["a" := VInt 1]>
                                 (<["inner" := VStr "inner"]> ∅))]> ex_heap)) 3
       !! "inner" = Some (VStr "inner").
Proof.
  assert (get_code_context ex_func_filled_cell ex_heap
          = inr ({| globals := 0; cells := 3; varnames := 4 |},
                 <[4 := ∅]> (<[3 := <["later" := VObj 1]> (<["a" := VInt 1]>
                                 (<["inner" := VStr "inner"]> ∅))]> ex_heap)))
    as E by (vm_compute; reflexivity).
  split; [exact E |].
  destruct (cells_keys_are_declared_names ex_rt ex_func_filled_cell ex_heap _ _ E)
    as (_ & H & _).
  apply (H "inner").
  - now left.
  - intros [D | [D | []]]; discriminate D.
Defined.

(* ===================================================================== *)
(** ** Builder and walker together                                        *)
(* ===================================================================== *)

(** The state after [load; last], where [load] pushes [v] and [last]
    has no named opcode. *)
Lemma push_then_default rt code context load last v st :
  dispatch rt context load st = (inr tt, push v (advance_line load st)) ->
  str_in (opname last) named_opcodes = false ->
  refs (after_steps rt code context [load; last] st)
    = refs st ++ pending (tos st) ++ pending v
  /\ warned (after_steps rt code context [load; last] st) = warned st.
Proof.
  intros Hd Hl. unfold after_steps; simpl.
  rewrite (after_step_ok rt code context load st _ Hd).
  set (st1 := push v (advance_line load st)).
  rewrite (after_step_ok rt code context last st1 _
             (dispatch_default rt context last st1 Hl)).
  destruct (commit_fields (advance_line last st1)) as (_ & Cr & _ & Cw & _).
  destruct (advance_line_fields last st1) as (Et & Er & _ & Ew).
  destruct (push_fields v (advance_line load st)) as (Pt & Pr & _ & Pw & _).
  destruct (advance_line_fields load st) as (Et0 & Er0 & _ & Ew0).
  fold st1 in Pt, Pr, Pw.
  rewrite Cr, Cw, Et, Er, Ew, Pt, Pr, Pw, Et0, Er0, Ew0.
  now rewrite <- app_assoc.
Qed.

(** X13.  In a context just built, the only local bound is [self], and
    only for a bound method: [return self] refers to the receiver,
    while a load of any other local, or of [self] in a plain function,
    refers to nothing. *)
Theorem only_self_is_bound_at_entry (rt : Runtime) (func : Func) (h : Heap)
    (context : CodeContext) (h1 : Heap) (load last : Instruction) :
  get_code_context func h = inr (context, h1) ->
  instructions (f_code func) = [load; last] ->
  opname load = "LOAD_FAST" ->
  str_in (opname last) named_opcodes = false ->
  returned (get_references rt func h)
    = inr (match f_self func with
           | Some receiver =>
               if String.eqb (argval load) "self" then pending receiver else []
           | None => []
           end).
Proof.
  intros Hctx Hc Hload Hl.
  unfold get_references. rewrite Hctx, get_referenced_objects_final. simpl.
  apply get_code_context_contents in Hctx as (_ & _ & Hv & _).
  unfold final_state. rewrite Hc.
  destruct (advance_line_fields load (entry h1)) as (_ & _ & Eh & _).
  pose proof (dispatch_load_fast rt context load (entry h1) Hload) as D.
  cbv zeta in D. rewrite Eh in D. simpl in D. rewrite Hv in D.
  unfold build_varnames in D.
  destruct (f_self func) as [receiver |].
  - destruct (String.eqb (argval load) "self") eqn:E.
    + apply String.eqb_eq in E. rewrite E, lookup_singleton_eq in D.
      destruct (push_then_default rt (f_code func) context load last receiver
                  (entry h1) D Hl) as [R _].
      now rewrite R.
    + apply String.eqb_neq in E.
      rewrite lookup_singleton_ne in D by congruence.
      rewrite <- push_None_commit in D.
      destruct (push_then_default rt (f_code func) context load last VNone
                  (entry h1) D Hl) as [R _].
      now rewrite R.
  - rewrite lookup_empty in D. rewrite <- push_None_commit in D.
    destruct (push_then_default rt (f_code func) context load last VNone
                (entry h1) D Hl) as [R _].
    now rewrite R.
Qed.

Lemma only_self_is_bound_at_entry_witness :
  (get_code_context ex_method ex_heap
     = inr ({| globals := 0; cells := 3; varnames := 4 |},
            <[4 := {[ "self" := VObj 1 ]}]> (<[3 := ∅]> ex_heap))
   /\ opname (ex_op "LOAD_FAST" "self") = "LOAD_FAST"
   /\ str_in (opname (ex_op "RETURN_VALUE" "")) named_opcodes = false)
  /\ returned (get_references ex_rt ex_method ex_heap) = inr [VObj 1].
Proof.
  assert (get_code_context ex_method ex_heap
          = inr ({| globals := 0; cells := 3; varnames := 4 |},
                 <[4 := {[ "self" := VObj 1 ]}]> (<[3 := ∅]> ex_heap))) as E
    by (vm_compute; reflexivity).
  split; [repeat split; try reflexivity; exact E |].
  exact (only_self_is_bound_at_entry ex_rt ex_method ex_heap _ _
           (ex_op "LOAD_FAST" "self") (ex_op "RETURN_VALUE" "")
           E eq_refl eq_refl eq_refl).
Defined.

(** X14.  Reading a captured variable: in a context just built, a free
    variable refers to the contents of its closure cell, and a variable
    the function only hands to its own inner functions refers to its
    own name as a string; neither emits a warning. *)
Theorem captured_variable_reference (rt : Runtime) (func : Func) (h : Heap)
    (context : CodeContext) (h1 : Heap) (load last : Instruction) :
  get_code_context func h = inr (context, h1) ->
  instructions (f_code func) = [load; last] ->
  str_in (opname load) ["LOAD_DEREF"; "LOAD_CLOSURE"] = true ->
  str_in (opname last) named_opcodes = false ->
  (forall i closure v,
      f_closure func = Some closure ->
      co_freevars (f_code func) !! i = Some (argval load) ->
      (forall j, i < j -> co_freevars (f_code func) !! j <> Some (argval load)) ->
      closure !! i = Some (Some v) ->
      returned (get_references rt func h) = inr (pending v))
  /\ (In (argval load) (co_cellvars (f_code func)) ->
      ~ In (argval load) (co_freevars (f_code func)) ->
      returned (get_references rt func h) = inr [VStr (argval load)]).
Proof.
  intros Hctx Hc Hload Hl.
  assert (forall v, deref h1 (cells context) !! argval load = Some v ->
                    returned (get_references rt func h) = inr (pending v)) as K.
  { intros v Hv. unfold get_references.
    rewrite Hctx, get_referenced_objects_final. simpl.
    unfold final_state. rewrite Hc.
    destruct (advance_line_fields load (entry h1)) as (_ & _ & Eh & _).
    pose proof (dispatch_load_deref rt context load (entry h1) Hload) as D.
    cbv zeta in D. rewrite Eh in D. simpl in D. rewrite Hv in D.
    destruct (push_then_default rt (f_code func) context load last v
                (entry h1) D Hl) as [R _].
    now rewrite R. }
  split.
  - intros i closure v Hcl Hi Hlast Hv. apply K.
    pose proof (get_code_context_success _ _ _ _ Hctx)
      as (d & Hd & _ & _ & _ & Hne & ->).
    rewrite deref_insert_ne, deref_insert_eq by exact Hne.
    unfold build_cells in Hd.
    destruct (co_freevars (f_code func)) as [| x xs] eqn:F;
      [destruct i; discriminate |].
    rewrite Hcl in Hd.
    destruct (length (x :: xs) =? length closure)%nat; [| discriminate].
    now destruct (update_from_closure_pairs _ _ _ _ i _ (Some v) Hd Hi Hv Hlast).
  - intros Hin Hnot. apply (K (VStr (argval load))).
    pose proof (get_code_context_success _ _ _ _ Hctx)
      as (d & Hd & _ & _ & _ & Hne & ->).
    rewrite deref_insert_ne, deref_insert_eq by exact Hne.
    assert (cellvar_placeholders (co_cellvars (f_code func)) !! argval load
            = Some (VStr (argval load))) as P
      by (unfold cellvar_placeholders; now apply foldl_placeholders_lookup).
    unfold build_cells in Hd.
    destruct (co_freevars (f_code func)) as [| x xs] eqn:F.
    + injection Hd as E. now subst d.
    + destruct (f_closure func) as [closure |]; [| discriminate].
      destruct (length (x :: xs) =? length closure)%nat; [| discriminate].
      now rewrite (update_from_closure_other _ _ _ _ _ Hd Hnot).
Qed.

Lemma captured_variable_reference_witness :
  (get_code_context ex_func_filled_cell ex_heap
     = inr ({| globals := 0; cells := 3; varnames := 4 |},
            <[4 := ∅]> (<[3 := <["later" := VObj 1]> (<["a" := VInt 1]>
                                  (<["inner" := VStr "inner"]> ∅))]> ex_heap))
   /\ str_in (opname (ex_op "LOAD_DEREF" "later")) ["LOAD_DEREF"; "LOAD_CLOSURE"]
      = true
   /\ str_in (opname (ex_op "RETURN_VALUE" "")) named_opcodes = false)
  /\ returned (get_references ex_rt ex_func_filled_cell ex_heap) = inr [VObj 1].
Proof.
  assert (get_code_context ex_func_filled_cell ex_heap
          = inr ({| globals := 0; cells := 3; varnames := 4 |},
                 <[4 := ∅]> (<[3 := <["later" := VObj 1]> (<["a" := VInt 1]>
                                 (<["inner" := VStr "inner"]> ∅))]> ex_heap)))
    as E by (vm_compute; reflexivity).
  split; [repeat split; try reflexivity; exact E |].
  destruct (captured_variable_reference ex_rt ex_func_filled_cell ex_heap _ _
              (ex_op "LOAD_DEREF" "later") (ex_op "RETURN_VALUE" "")
              E eq_refl eq_refl eq_refl) as [H _].
  apply (H 1 [Some (VInt 1); Some (VObj 1)] (VObj 1)); try reflexivity.
  intros [| [| j]] Hj; [lia | lia | discriminate].
Defined.

(* ===================================================================== *)
(** ** Attributes of resolved objects, globals through a built context     *)
(* ===================================================================== *)

(** X15.  An attribute of a resolved object: when a global is bound to
    a value that is neither [None] nor a string, [g.a] refers to the
    attribute the lookup returns; when the lookup raises, one warning
    is emitted and the reference is to the object itself. *)
Theorem attribute_of_resolved_global (rt : Runtime) (code : Code)
    (context : CodeContext) (h : Heap) (load attr last : Instruction)
    (v : value) :
  str_in (opname load) ["LOAD_GLOBAL"; "LOAD_NAME"] = true ->
  deref h (globals context) !! argval load = Some v ->
  register v = Concrete v ->
  str_in (opname attr) ["LOAD_METHOD"; "LOAD_ATTR"; "IMPORT_FROM"] = true ->
  str_in (opname last) named_opcodes = false ->
  instructions code = [load; attr; last] ->
  fst (get_referenced_objects rt code context h)
    = inr (match getattr rt v (argval attr) with
           | inr r => pending r
           | inl _ => [v]
           end)
  /\ map w_error (warned (final_state rt code context h))
     = match getattr rt v (argval attr) with
       | inr _ => []
       | inl e => [e]
       end.
Proof.
  intros Hload Hv Hreg Hattr Hl Hc.
  rewrite get_referenced_objects_final. unfold final_state. rewrite Hc.
  unfold after_steps; simpl.
  destruct (advance_line_fields load (entry h)) as (Et0 & Er0 & Eh0 & Ew0).
  rewrite (after_step_ok rt code context load (entry h) _
             (dispatch_load_global rt context load (entry h) Hload)).
  cbv zeta. rewrite Eh0. simpl. rewrite Hv. simpl.
  set (st1 := push v (advance_line load (entry h))).
  assert (tos st1 = v /\ refs st1 = [] /\ warned st1 = []) as (Pt & Pr & Pw).
  { destruct (push_fields v (advance_line load (entry h)))
      as (Qt & Qr & _ & Qw & _).
    unfold st1. rewrite Qt, Qr, Qw, Et0, Er0, Ew0. auto. }
  destruct (advance_line_fields attr st1) as (Et1 & Er1 & _ & Ew1).
  set (st2 := after_step rt code context st1 attr).
  assert (tos st2 = match getattr rt v (argval attr) with
                    | inr r => r | inl _ => v end
          /\ refs st2 = []
          /\ map w_error (warned st2)
             = match getattr rt v (argval attr) with
               | inr _ => [] | inl e => [e] end) as (T2 & R2 & W2).
  { unfold st2, after_step. rewrite step_unfold.
    rewrite dispatch_load_attr by exact Hattr. cbv zeta. rewrite Et1, Pt.
    destruct v; try discriminate Hreg;
      destruct (getattr rt _ (argval attr)); simpl;
      rewrite ?Et1, ?Er1, ?Ew1, ?Pt, ?Pr, ?Pw; simpl; auto. }
  rewrite (after_step_ok rt code context last st2 _
             (dispatch_default rt context last st2 Hl)).
  destruct (commit_fields (advance_line last st2)) as (_ & Cr & _ & Cw & _).
  destruct (advance_line_fields last st2) as (Et & Er & _ & Ew).
  rewrite Cr, Cw, Et, Er, Ew, T2, R2, W2. simpl.
  destruct (getattr rt v (argval attr)); simpl; [| auto].
  split; [| reflexivity]. unfold pending.
  destruct v; simpl; try reflexivity; discriminate Hreg.
Qed.

Lemma attribute_of_resolved_global_witness :
  (str_in (opname (ex_op "LOAD_GLOBAL" "o")) ["LOAD_GLOBAL"; "LOAD_NAME"] = true
   /\ deref ex_heap (globals ex_context) !! "o" = Some (VObj 1)
   /\ register (VObj 1) = Concrete (VObj 1)
   /\ str_in (opname (ex_op "LOAD_METHOD" "ok"))
        ["LOAD_METHOD"; "LOAD_ATTR"; "IMPORT_FROM"] = true
   /\ str_in (opname (ex_op "CALL_METHOD" "0")) named_opcodes = false)
  /\ fst (get_referenced_objects ex_rt
            (ex_code [ex_op "LOAD_GLOBAL" "o"; ex_op "LOAD_METHOD" "ok";
                      ex_op "CALL_METHOD" "0"]) ex_context ex_heap)
     = inr [VObj 2].
Proof.
  split; [repeat split; reflexivity |].
  exact (proj1 (attribute_of_resolved_global ex_rt
                  (ex_code [ex_op "LOAD_GLOBAL" "o"; ex_op "LOAD_METHOD" "ok";
                            ex_op "CALL_METHOD" "0"]) ex_context ex_heap
                  (ex_op "LOAD_GLOBAL" "o") (ex_op "LOAD_METHOD" "ok")
                  (ex_op "CALL_METHOD" "0") (VObj 1)
                  eq_refl eq_refl eq_refl eq_refl eq_refl eq_refl)).
Defined.

(** X16.  A built context reads the function's own namespace: a global
    load walked through [get_references] resolves in the dictionary
    [func.__globals__] refers to, which building the context neither
    copies nor disturbs. *)
Theorem global_read_through_built_context (rt : Runtime) (func : Func)
    (h : Heap) (load last : Instruction) :
  f_globals func ∈ dom h ->
  co_freevars (f_code func) = [] ->
  instructions (f_code func) = [load; last] ->
  str_in (opname load) ["LOAD_GLOBAL"; "LOAD_NAME"] = true ->
  str_in (opname last) named_opcodes = false ->
  returned (get_references rt func h)
    = inr (pending (resolve_global (deref h (f_globals func)) (argval load))).
Proof.
  intros Hg Hf Hc Hload Hl.
  destruct (get_code_context func h) as [e | [context h1]] eqn:Hctx.
  { apply get_code_context_failure in Hctx. unfold build_cells in Hctx.
    rewrite Hf in Hctx. discriminate. }
  unfold get_references. rewrite Hctx, get_referenced_objects_final. simpl.
  apply get_code_context_contents in Hctx as (G & _ & _ & Fr & _).
  unfold final_state. rewrite Hc.
  destruct (advance_line_fields load (entry h1)) as (_ & _ & Eh & _).
  pose proof (dispatch_load_global rt context load (entry h1) Hload) as D.
  cbv zeta in D. rewrite Eh in D. simpl in D.
  destruct (push_then_default rt (f_code func) context load last _
              (entry h1) D Hl) as [R _].
  rewrite R. simpl. unfold resolve_global, deref.
  now rewrite G, (Fr _ Hg).
Qed.

Lemma global_read_through_built_context_witness :
  (f_globals test_global ∈ dom ex_heap
   /\ co_freevars (f_code test_global) = []
   /\ str_in (opname (ex_op "LOAD_GLOBAL" "g")) ["LOAD_GLOBAL"; "LOAD_NAME"] = true
   /\ str_in (opname (ex_op "RETURN_VALUE" "")) named_opcodes = false)
  /\ returned (get_references ex_rt test_global ex_heap)
     = inr (pending (resolve_global (deref ex_heap 0) "g")).
Proof.
  assert (f_globals test_global ∈ dom ex_heap) as D.
  { apply elem_of_dom. exists ex_globals. reflexivity. }
  split; [repeat split; try reflexivity; exact D |].
  exact (global_read_through_built_context ex_rt test_global ex_heap
           (ex_op "LOAD_GLOBAL" "g") (ex_op "RETURN_VALUE" "")
           D eq_refl eq_refl eq_refl eq_refl).
Defined.

